(** * AnonymBot: the matching and session engine of [main.go]

    A shallow embedding of the in-memory state of the bot (the user table
    and the two waiting queues) and of the handlers that mutate it, followed
    by the properties of the session state machine.

    Conventions of the embedding.
    - A user identifier is a Go [int64]; no arithmetic is ever performed on
      identifiers, so they are modelled by [Z].  [Partner = 0] means "none",
      as in the source.
    - [b.users] is a [map[int64]*UserState].  Every pointer stored in the map
      is allocated at exactly one key (the two "create if absent" blocks of
      [Run] and [handleCallback]), so two pointers alias exactly when their
      keys are equal and the heap is modelled by the [gmap] itself: a write
      through [b.users[k]] is an update at key [k].
    - Dereferencing the [nil] pointer returned by a lookup of an absent key
      panics; a panic is the result [None].
    - Calls to the transport ([b.api.Send], [b.api.Request]) are recorded, in
      order, in the list of [Request]s a handler returns.
    - [Run] consumes the updates one at a time on a single goroutine, so the
      handlers never interleave and the mutex has no observable effect. *)

From stdpp Require Import gmap strings list fin_maps.
From Stdlib Require Import ZArith String Ascii.

Local Open Scope Z_scope.

(** ** Data model *)

(** [type UserGender string] *)
Definition UserGender := string.

Definition Male : UserGender := "male"%string.
Definition Female : UserGender := "female"%string.

(** [type UserState struct] *)
Record UserState := mkUserState {
  Gender : UserGender;
  Partner : Z;      (* chat partner ID, 0 if none *)
  Waiting : bool    (* if waiting for a match *)
}.

(** The zero value [&UserState{}]. *)
Definition zeroState : UserState :=
  {| Gender := ""%string; Partner := 0; Waiting := false |}.

(** [type Bot struct], without the transport handle and the mutex. *)
Record Bot := mkBot {
  users : gmap Z UserState;
  maleQueue : list Z;
  femaleQueue : list Z
}.

(** The state built by [NewBot]: an empty map and two [nil] slices. *)
Definition NewBot : Bot :=
  {| users := ∅; maleQueue := []; femaleQueue := [] |}.

(** What the bot asks of the transport. *)
Inductive Request :=
  | SendMessage (chat : Z) (text : string) (buttons : list (string * string))
  | AnswerCallback (queryID : string)
  | DeleteMessage (chat : Z) (messageID : Z).

Definition nl : string := String (ascii_of_nat 10) EmptyString.

Definition txtChooseGenderFirst : string :=
  "Сначала выбери пол через /start."%string.
Definition txtAlreadyInChat : string :=
  "Ты уже в чате! Используй /stop или /next."%string.
Definition txtSearching : string :=
  "🔎 Ищем твою искру... Останься на связи! 😎"%string.
Definition txtMatched : string :=
  String.append
    "✨ Партнёр найден! Пиши и наслаждайся анонимной магией! 💬"%string
    (String.append nl "(/stop — выйти, /next — новый чат)"%string).
Definition txtNotInChatStop : string :=
  "Ты не в чате. Начни с /start!"%string.
Definition txtChatEnded : string :=
  "🛑 Чат завершён. Хочешь новую искру? Жми /start!"%string.
Definition txtPartnerEnded : string :=
  "🛑 Партнёр завершил чат. Хочешь новый? Жми /start!"%string.
Definition txtNotInChatRelay : string :=
  "Ты не в чате. Жми /start или 'Начать чат'!"%string.
Definition txtWelcome : string :=
  String.append
    "🌟 Добро пожаловать в *Таинственный чат*! Найди свою искру анонимно! 😎"%string
    (String.append nl "Выбери пол:"%string).
Definition txtGenderChosen (gender : UserGender) : string :=
  String.append "🎉 Пол выбран: *"%string
    (String.append gender "*! Готов начать анонимную магию? 💬"%string).

(** [b.sendMessage]: a plain text message, no keyboard. *)
Definition sendMessage (userID : Z) (text : string) : Request :=
  SendMessage userID text [].

(** ** Handlers *)

(** A handler either panics ([None]) or finishes in a new state, having
    issued some requests to the transport. *)
Definition Result : Type := option (Bot * list Request).

Definition withGender (g : UserGender) (st : UserState) : UserState :=
  {| Gender := g; Partner := Partner st; Waiting := Waiting st |}.
Definition withPartner (p : Z) (st : UserState) : UserState :=
  {| Gender := Gender st; Partner := p; Waiting := Waiting st |}.
Definition withWaiting (w : bool) (st : UserState) : UserState :=
  {| Gender := Gender st; Partner := Partner st; Waiting := w |}.

(** A field assignment [b.users[k].f = v]: a write through the pointer
    stored at key [k], which panics when the key is absent. *)
Definition store (k : Z) (f : UserState → UserState)
    (us : gmap Z UserState) : option (gmap Z UserState) :=
  st ← us !! k; Some (<[k := f st]> us).

(** The "create if absent" block at the head of [Run]'s loop body and of
    [handleCallback]. *)
Definition getOrCreate (userID : Z) (b : Bot) : Bot :=
  match users b !! userID with
  | Some _ => b
  | None => {| users := <[userID := zeroState]> (users b);
               maleQueue := maleQueue b; femaleQueue := femaleQueue b |}
  end.

(** [handleStart] *)
Definition handleStart (userID : Z) (b : Bot) : Result :=
  Some (b, [SendMessage userID txtWelcome
              [("👨 Мужской"%string, "gender_male"%string);
               ("👩 Женский"%string, "gender_female"%string)]]).

(** [setGender] *)
Definition setGender (userID : Z) (gender : UserGender) (b : Bot) : Result :=
  us ← store userID (withGender gender) (users b);
  Some ({| users := us; maleQueue := maleQueue b; femaleQueue := femaleQueue b |},
        [SendMessage userID (txtGenderChosen gender)
           [("🔥 Начать чат"%string, "start_chat"%string)]]).

(** The loop of [matchUsers].  Each iteration drops the head of both queues,
    so the loop is a structural recursion on the male queue. *)
Fixpoint matchLoop (us : gmap Z UserState) (mq fq : list Z) : Result :=
  match mq, fq with
  | maleID :: mq', femaleID :: fq' =>
      us ← store maleID (withPartner femaleID) us;
      us ← store femaleID (withPartner maleID) us;
      us ← store maleID (withWaiting false) us;
      us ← store femaleID (withWaiting false) us;
      '(b', out) ← matchLoop us mq' fq';
      Some (b', sendMessage maleID txtMatched
                  :: sendMessage femaleID txtMatched :: out)
  | _, _ => Some ({| users := us; maleQueue := mq; femaleQueue := fq |}, [])
  end.

(** [matchUsers] *)
Definition matchUsers (b : Bot) : Result :=
  matchLoop (users b) (maleQueue b) (femaleQueue b).

(** [startChat] *)
Definition startChat (userID : Z) (b : Bot) : Result :=
  state ← users b !! userID;
  if decide (Gender state = ""%string) then
    Some (b, [sendMessage userID txtChooseGenderFirst])
  else if decide (Partner state ≠ 0) then
    Some (b, [sendMessage userID txtAlreadyInChat])
  else
    let us := <[userID := withWaiting true state]> (users b) in
    let b1 :=
      if decide (Gender state = Male) then
        {| users := us; maleQueue := maleQueue b ++ [userID];
           femaleQueue := femaleQueue b |}
      else
        {| users := us; maleQueue := maleQueue b;
           femaleQueue := femaleQueue b ++ [userID] |} in
    '(b2, out) ← matchUsers b1;
    Some (b2, sendMessage userID txtSearching :: out).

(** One [for ... range] loop of [removeFromQueue]: the queue without the
    first occurrence of [userID], or [None] when the loop ends without
    finding it. *)
Fixpoint removeFirst (userID : Z) (q : list Z) : option (list Z) :=
  match q with
  | [] => None
  | id :: q' =>
      if decide (id = userID) then Some q'
      else match removeFirst userID q' with
           | Some r => Some (id :: r)
           | None => None
           end
  end.

(** [removeFromQueue]: the function returns as soon as one entry has been
    removed, so the female queue is scanned only when the male queue does
    not hold [userID]. *)
Definition removeFromQueue (userID : Z) (b : Bot) : Bot :=
  match removeFirst userID (maleQueue b) with
  | Some q => {| users := users b; maleQueue := q; femaleQueue := femaleQueue b |}
  | None =>
      match removeFirst userID (femaleQueue b) with
      | Some q => {| users := users b; maleQueue := maleQueue b; femaleQueue := q |}
      | None => b
      end
  end.

(** [stopChat] *)
Definition stopChat (userID : Z) (b : Bot) : Result :=
  state ← users b !! userID;
  if decide (Partner state = 0) then
    Some (b, [sendMessage userID txtNotInChatStop])
  else
    let partnerID := Partner state in
    us ← store userID (withPartner 0) (users b);
    us ← store partnerID (withPartner 0) us;
    let b1 := {| users := us; maleQueue := maleQueue b;
                 femaleQueue := femaleQueue b |} in
    Some (removeFromQueue partnerID (removeFromQueue userID b1),
          [sendMessage userID txtChatEnded;
           sendMessage partnerID txtPartnerEnded]).

(** [nextPartner] *)
Definition nextPartner (userID : Z) (b : Bot) : Result :=
  '(b1, out1) ← stopChat userID b;
  '(b2, out2) ← startChat userID b1;
  Some (b2, out1 ++ out2).

(** [forwardMessage] *)
Definition forwardMessage (userID : Z) (text : string) (b : Bot) : Result :=
  state ← users b !! userID;
  let partnerID := Partner state in
  if decide (partnerID ≠ 0) then Some (b, [sendMessage partnerID text])
  else Some (b, [sendMessage userID txtNotInChatRelay]).

(** ** The event loop *)

(** An update delivered by the transport: an inline-button click, a text
    message, or anything else (which [Run] skips). *)
Inductive Update :=
  | CallbackQuery (from : Z) (data : string) (queryID : string) (messageID : Z)
  | Message (from : Z) (text : string)
  | OtherUpdate.

(** [handleCallback] *)
Definition handleCallback (userID : Z) (data queryID : string) (messageID : Z)
    (b : Bot) : Result :=
  let b0 := getOrCreate userID b in
  '(b1, out) ←
    (if decide (data = "gender_male"%string) then setGender userID Male b0
     else if decide (data = "gender_female"%string) then setGender userID Female b0
     else if decide (data = "start_chat"%string) then startChat userID b0
     else Some (b0, []));
  Some (b1, out ++ [AnswerCallback queryID; DeleteMessage userID messageID]).

(** The body of the [for update := range updates] loop of [Run]. *)
Definition handleUpdate (u : Update) (b : Bot) : Result :=
  match u with
  | CallbackQuery userID data queryID messageID =>
      handleCallback userID data queryID messageID b
  | OtherUpdate => Some (b, [])
  | Message userID text =>
      let b0 := getOrCreate userID b in
      if decide (text = "/start"%string) then handleStart userID b0
      else if decide (text = "/stop"%string) then stopChat userID b0
      else if decide (text = "/next"%string) then nextPartner userID b0
      else forwardMessage userID text b0
  end.

(** [Run] on a finite prefix of the update channel, from state [b]. *)
Fixpoint run (us : list Update) (b : Bot) : Result :=
  match us with
  | [] => Some (b, [])
  | u :: us' =>
      '(b1, out1) ← handleUpdate u b;
      '(b2, out2) ← run us' b1;
      Some (b2, out1 ++ out2)
  end.

(** The states the bot can be in: those [Run] reaches from [NewBot]. *)
Inductive reachable : Bot → Prop :=
  | reach_init : reachable NewBot
  | reach_step b u b' out :
      reachable b → handleUpdate u b = Some (b', out) → reachable b'.

(** Shorthands for traces: user [userID] clicks the button carrying [data],
    or sends the text [text]. *)
Definition pick (data : string) (userID : Z) : Update :=
  CallbackQuery userID data "q"%string 1.
Definition say (text : string) (userID : Z) : Update := Message userID text.

(** ** Properties of states *)

(** [A.partner == B] implies [B.partner == A], for every identifier [B]
    that denotes a partner (that is, [B ≠ 0]). *)
Definition partnerSymmetric (b : Bot) : Prop :=
  ∀ A B stA, users b !! A = Some stA → Partner stA = B → B ≠ 0 →
    ∃ stB, users b !! B = Some stB ∧ Partner stB = A.

(** No identifier occurs twice in the two queues taken together. *)
Definition queuesUnique (b : Bot) : Prop :=
  NoDup (maleQueue b ++ femaleQueue b).

(** No user is both waiting and paired. *)
Definition waitingUnpaired (b : Bot) : Prop :=
  ∀ u st, users b !! u = Some st → ¬ (Waiting st = true ∧ Partner st ≠ 0).

(** The part of the state that is well formed in every reachable state:
    queued users are known and have declared a category, partners are known
    and have declared a category, and a category is one of the two genders
    or unset. *)
Record wellFormed (b : Bot) : Prop := mkWellFormed {
  wf_queued : ∀ u, u ∈ maleQueue b ++ femaleQueue b →
      ∃ st, users b !! u = Some st ∧ Gender st ≠ ""%string;
  wf_partner_known : ∀ u st, users b !! u = Some st → Partner st ≠ 0 →
      is_Some (users b !! Partner st);
  wf_partner_gender : ∀ u st, users b !! u = Some st → Partner st ≠ 0 →
      Gender st ≠ ""%string;
  wf_gender : ∀ u st, users b !! u = Some st →
      Gender st = ""%string ∨ Gender st = Male ∨ Gender st = Female;
  wf_waiting : waitingUnpaired b
}.

(** ** Auxiliary definitions *)

(** What is prepended to the outcome of the rest of a computation. *)
Definition after (pre : list Request) (r : Result) : Result :=
  '(b, out) ← r; Some (b, pre ++ out).

(** The four assignments of one iteration of [matchUsers], as one update of
    the table. *)
Definition pairUp (maleID femaleID : Z) (sm sf : UserState)
    (us : gmap Z UserState) : gmap Z UserState :=
  <[femaleID := {| Gender := Gender sf; Partner := maleID; Waiting := false |}]>
    (<[maleID := {| Gender := Gender sm; Partner := femaleID; Waiting := false |}]> us).

(** The two notices of one iteration of [matchUsers]. *)
Definition matchedNotices (p : Z * Z) : list Request :=
  [sendMessage p.1 txtMatched; sendMessage p.2 txtMatched].

(** The state in which [startChat] calls [matchUsers]: the caller is marked
    as waiting and appended to the queue of its category. *)
Definition enqueued (userID : Z) (state : UserState) (b : Bot) : Bot :=
  let us := <[userID := withWaiting true state]> (users b) in
  if decide (Gender state = Male) then
    {| users := us; maleQueue := maleQueue b ++ [userID];
       femaleQueue := femaleQueue b |}
  else
    {| users := us; maleQueue := maleQueue b;
       femaleQueue := femaleQueue b ++ [userID] |}.

(** The queue [startChat] appends a user of category [g] to, and the other
    one: the branch [if state.Gender == Male]. *)
Definition queueOf (g : UserGender) (b : Bot) : list Z :=
  if decide (g = Male) then maleQueue b else femaleQueue b.
Definition oppositeQueueOf (g : UserGender) (b : Bot) : list Z :=
  if decide (g = Male) then femaleQueue b else maleQueue b.

(** The state after a trace of updates, from the initial state. *)
Definition afterTrace (us : list Update) : Bot :=
  match run us NewBot with
  | Some (b, _) => b
  | None => NewBot
  end.

(** ** Example traces *)

(** User 5 sends /start and does not pick a gender. *)
Definition traceNewcomer : list Update := [say "/start" 5].

(** User 7 declares "male" and does not start a search. *)
Definition traceDeclared : list Update := [pick "gender_male" 7].

(** User 7 declares "male" and starts a search; nobody else is around. *)
Definition traceOneWaiting : list Update :=
  [pick "gender_male" 7; pick "start_chat" 7].

(** User 7 declares "male", starts a search and, while still waiting, asks
    for the next partner. *)
Definition traceNextWhileWaiting : list Update :=
  [pick "gender_male" 7; pick "start_chat" 7; say "/next" 7].

(** The same, after which two women, 8 and 9, declare their category and
    start a search one after the other. *)
Definition traceTwoArrivals : list Update :=
  traceNextWhileWaiting ++
  [pick "gender_female" 8; pick "start_chat" 8;
   pick "gender_female" 9; pick "start_chat" 9].

(** User 7 sends /next while waiting and so stands twice in the male queue;
    woman 8 arrives and is paired with 7; woman 9 has declared her category
    and has not started yet. *)
Definition traceSecondArrival : list Update :=
  traceNextWhileWaiting ++
  [pick "gender_female" 8; pick "start_chat" 8; pick "gender_female" 9].

(** Man 7 and woman 8 are in a session; both queues are empty. *)
Definition tracePaired : list Update :=
  [pick "gender_male" 7; pick "start_chat" 7;
   pick "gender_female" 8; pick "start_chat" 8].

(** Men 1, 2 and 3 declare their category and start a search in that order;
    woman 4 has declared hers and has not started yet. *)
Definition traceThreeWaiting : list Update :=
  [pick "gender_male" 1; pick "start_chat" 1;
   pick "gender_male" 2; pick "start_chat" 2;
   pick "gender_male" 3; pick "start_chat" 3;
   pick "gender_female" 4].

(** The state in which woman 4's [startChat] then calls [matchUsers]. *)
Definition entryThreeWaiting : Bot :=
  enqueued 4 {| Gender := Female; Partner := 0; Waiting := false |}
    (afterTrace traceThreeWaiting).

(** ** Kinds of updates and disciplined runs *)

(** The updates that reach [startChat], [stopChat] or [nextPartner]: the
    "start_chat" button and the texts /stop and /next. *)
Definition sessionUpdate (u : Update) : bool :=
  match u with
  | CallbackQuery _ data _ _ => bool_decide (data = "start_chat"%string)
  | Message _ text =>
      bool_decide (text = "/stop"%string) || bool_decide (text = "/next"%string)
  | OtherUpdate => false
  end.

(** An update is disciplined in state [b] when its sender is not the
    identifier 0 (which [Partner] uses for "none") and, if it leads to
    [startChat] (the "start_chat" button or the text /next), its sender does
    not stand in a queue. *)
Definition disciplined (u : Update) (b : Bot) : bool :=
  match u with
  | CallbackQuery userID data _ _ =>
      bool_decide (userID ≠ 0) &&
      (bool_decide (data ≠ "start_chat"%string) ||
       bool_decide (userID ∉ maleQueue b ++ femaleQueue b))
  | Message userID text =>
      bool_decide (userID ≠ 0) &&
      (bool_decide (text ≠ "/next"%string) ||
       bool_decide (userID ∉ maleQueue b ++ femaleQueue b))
  | OtherUpdate => true
  end.

(** Every update of the trace is disciplined in the state it is handled
    in. *)
Fixpoint disciplinedRun (us : list Update) (b : Bot) : bool :=
  match us with
  | [] => true
  | u :: us' =>
      disciplined u b &&
      match handleUpdate u b with
      | Some (b1, _) => disciplinedRun us' b1
      | None => true
      end
  end.

(** The session invariants: partners are mutual, nobody is queued twice,
    the queued users are exactly the waiting ones and have no partner,
    nobody is their own partner, and 0 is not a user. *)
Record consistent (b : Bot) : Prop := mkConsistent {
  cs_symmetric : partnerSymmetric b;
  cs_unique : queuesUnique b;
  cs_queued : ∀ u, u ∈ maleQueue b ++ femaleQueue b →
      ∃ st, users b !! u = Some st ∧ Partner st = 0 ∧ Waiting st = true;
  cs_waiting : ∀ u st, users b !! u = Some st → Waiting st = true →
      u ∈ maleQueue b ++ femaleQueue b;
  cs_no_self : ∀ u st, users b !! u = Some st → Partner st ≠ u;
  cs_no_zero : users b !! 0 = None
}.

(** Every record of [us] is still there in [us'], with the same gender. *)
Definition sameGenders (us us' : gmap Z UserState) : Prop :=
  ∀ v st, us !! v = Some st →
    ∃ st', us' !! v = Some st' ∧ Gender st' = Gender st.

(** Two tables hold the same users with the same gender and partner; the
    waiting flags may differ. *)
Definition agreeUsers (us1 us2 : gmap Z UserState) : Prop :=
  ∀ v, match us1 !! v, us2 !! v with
       | Some s1, Some s2 => Gender s1 = Gender s2 ∧ Partner s1 = Partner s2
       | None, None => True
       | _, _ => False
       end.

(** Two states are equal up to the waiting flags. *)
Definition agreeButWaiting (b1 b2 : Bot) : Prop :=
  maleQueue b1 = maleQueue b2 ∧ femaleQueue b1 = femaleQueue b2 ∧
  agreeUsers (users b1) (users b2).

(** Two outcomes are both panics, or carry the same requests and states
    that are equal up to the waiting flags. *)
Definition sameOutcome (r1 r2 : Result) : Prop :=
  match r1, r2 with
  | Some (b1, out1), Some (b2, out2) => out1 = out2 ∧ agreeButWaiting b1 b2
  | None, None => True
  | _, _ => False
  end.

(** The state after [traceOneWaiting], with the waiting flag of user 7
    cleared. *)
Definition botWaitingCleared : Bot :=
  {| users := {[7 := {| Gender := Male; Partner := 0; Waiting := false |}]};
     maleQueue := [7]; femaleQueue := [] |}.

(** The request is a message to a chat. *)
Definition isSendMessage (r : Request) : bool :=
  match r with
  | SendMessage _ _ _ => true
  | _ => false
  end.

(** A state in which user 7 stands in both queues. *)
Definition botInBothQueues : Bot :=
  {| users := {[7 := {| Gender := Female; Partner := 0; Waiting := true |}]};
     maleQueue := [7; 1]; femaleQueue := [2; 7] |}.

(** Women 8 and 9 and man 7: 8 waits, 7 arrives and is paired with 8, 9
    starts waiting, 7 asks for the next partner and is paired with 9, and 9
    ends that chat. *)
Definition traceDisciplined : list Update :=
  [pick "gender_female" 8; pick "start_chat" 8;
   pick "gender_male" 7; pick "start_chat" 7;
   pick "gender_female" 9; pick "start_chat" 9;
   say "/next" 7; say "hello" 7; say "/stop" 9].

(** ** Basic facts about the primitives *)

Lemma store_Some k f (us : gmap Z UserState) st :
  us !! k = Some st → store k f us = Some (<[k := f st]> us).
Proof. intros H. unfold store. rewrite H. reflexivity. Qed.

Lemma store_None k f (us : gmap Z UserState) :
  us !! k = None → store k f us = None.
Proof. intros H. unfold store. rewrite H. reflexivity. Qed.

Lemma after_Some pre b out : after pre (Some (b, out)) = Some (b, pre ++ out).
Proof. reflexivity. Qed.

Lemma after_inv pre r b out :
  after pre r = Some (b, out) → ∃ out', r = Some (b, out') ∧ out = pre ++ out'.
Proof.
  destruct r as [[b0 out0]|]; simpl; [|discriminate].
  intros [= <- <-]. eauto.
Qed.

Lemma matchLoop_nil_l us fq :
  matchLoop us [] fq = Some ({| users := us; maleQueue := []; femaleQueue := fq |}, []).
Proof. reflexivity. Qed.

Lemma matchLoop_nil_r us mq :
  matchLoop us mq [] = Some ({| users := us; maleQueue := mq; femaleQueue := [] |}, []).
Proof. destruct mq; reflexivity. Qed.

Lemma matchLoop_cons us m mq f fq sm sf :
  us !! m = Some sm → us !! f = Some sf →
  matchLoop us (m :: mq) (f :: fq) =
    after [sendMessage m txtMatched; sendMessage f txtMatched]
      (matchLoop (pairUp m f sm sf us) mq fq).
Proof.
  intros Hm Hf. cbn [matchLoop]. unfold pairUp.
  destruct (decide (m = f)) as [->|Hne].
  - assert (sm = sf) as -> by congruence.
    rewrite (store_Some _ _ _ _ Hm). cbn [mbind option_bind].
    erewrite store_Some by apply lookup_insert_eq. cbn [mbind option_bind].
    erewrite store_Some by apply lookup_insert_eq. cbn [mbind option_bind].
    erewrite store_Some by apply lookup_insert_eq. cbn [mbind option_bind].
    rewrite !insert_insert_eq. reflexivity.
  - assert (Hfm : f ≠ m) by congruence.
    set (us1 := <[m := withPartner f sm]> us).
    set (us2 := <[f := withPartner m sf]> us1).
    set (us3 := <[m := withWaiting false (withPartner f sm)]> us2).
    assert (H1 : us1 !! f = Some sf)
      by (unfold us1; rewrite lookup_insert_ne; done).
    assert (H2 : us2 !! m = Some (withPartner f sm)).
    { unfold us2. rewrite lookup_insert_ne by done. apply lookup_insert_eq. }
    assert (H3 : us3 !! f = Some (withPartner m sf)).
    { unfold us3. rewrite lookup_insert_ne by done. apply lookup_insert_eq. }
    rewrite (store_Some _ _ _ _ Hm). cbn [mbind option_bind].
    rewrite (store_Some _ _ _ _ H1). cbn [mbind option_bind].
    rewrite (store_Some _ _ _ _ H2). cbn [mbind option_bind].
    rewrite (store_Some _ _ _ _ H3). cbn [mbind option_bind].
    replace (<[f:=withWaiting false (withPartner m sf)]> us3)
      with (<[f:={| Gender := Gender sf; Partner := m; Waiting := false |}]>
              (<[m:={| Gender := Gender sm; Partner := f; Waiting := false |}]> us));
      [reflexivity|].
    apply map_eq. intros v. unfold us3, us2, us1, withWaiting, withPartner.
    cbn [Gender Partner Waiting].
    destruct (decide (v = f)) as [->|Hvf].
    + rewrite !lookup_insert_eq. reflexivity.
    + rewrite !(lookup_insert_ne _ f v) by done.
      destruct (decide (v = m)) as [->|Hvm].
      * rewrite !lookup_insert_eq. reflexivity.
      * rewrite !(lookup_insert_ne _ m v) by done.
        rewrite !(lookup_insert_ne _ f v) by done.
        rewrite !(lookup_insert_ne _ m v) by done. reflexivity.
Qed.

Lemma matchLoop_cons_None us m mq f fq :
  us !! m = None ∨ us !! f = None → matchLoop us (m :: mq) (f :: fq) = None.
Proof.
  intros H. cbn [matchLoop]. unfold store.
  destruct (us !! m) as [sm|] eqn:Hm; [|reflexivity].
  destruct H as [H|H]; [discriminate|]. cbn [mbind option_bind].
  destruct (decide (m = f)) as [->|Hne]; [congruence|].
  rewrite lookup_insert_ne by done. rewrite H. reflexivity.
Qed.

(** ** Well-formedness is preserved by every handler *)

Lemma wellFormed_NewBot : wellFormed NewBot.
Proof.
  split; unfold waitingUnpaired; simpl.
  - intros u Hu. by apply elem_of_nil in Hu.
  - intros u st H. by rewrite lookup_empty in H.
  - intros u st H. by rewrite lookup_empty in H.
  - intros u st H. by rewrite lookup_empty in H.
  - intros u st H. by rewrite lookup_empty in H.
Qed.

(** Writing a record [st'] at key [k] keeps the state well formed when [st']
    itself is consistent with the queues and the table. *)
Lemma wellFormed_insert us mq fq k st' :
  wellFormed {| users := us; maleQueue := mq; femaleQueue := fq |} →
  (k ∈ mq ++ fq → Gender st' ≠ ""%string) →
  (Partner st' ≠ 0 → is_Some (<[k := st']> us !! Partner st')) →
  (Partner st' ≠ 0 → Gender st' ≠ ""%string) →
  (Gender st' = ""%string ∨ Gender st' = Male ∨ Gender st' = Female) →
  ¬ (Waiting st' = true ∧ Partner st' ≠ 0) →
  wellFormed {| users := <[k := st']> us; maleQueue := mq; femaleQueue := fq |}.
Proof.
  intros [Hq Hk Hg Hv Hw] C1 C2 C3 C4 C5.
  split; unfold waitingUnpaired in *; cbn [users maleQueue femaleQueue] in *.
  - intros u Hu. destruct (decide (u = k)) as [->|Hne].
    + exists st'. rewrite lookup_insert_eq. auto.
    + rewrite lookup_insert_ne by done. auto.
  - intros u st. destruct (decide (u = k)) as [->|Hne].
    + rewrite lookup_insert_eq. intros [= <-]. exact C2.
    + rewrite lookup_insert_ne by done. intros Hu Hp.
      destruct (decide (Partner st = k)) as [->|Hne'].
      * rewrite lookup_insert_eq. eauto.
      * rewrite lookup_insert_ne by done. eauto.
  - intros u st. destruct (decide (u = k)) as [->|Hne].
    + rewrite lookup_insert_eq. intros [= <-]. exact C3.
    + rewrite lookup_insert_ne by done. eauto.
  - intros u st. destruct (decide (u = k)) as [->|Hne].
    + rewrite lookup_insert_eq. intros [= <-]. exact C4.
    + rewrite lookup_insert_ne by done. eauto.
  - intros u st. destruct (decide (u = k)) as [->|Hne].
    + rewrite lookup_insert_eq. intros [= <-]. exact C5.
    + rewrite lookup_insert_ne by done. eauto.
Qed.

(** Replacing the queues keeps the state well formed when every queued
    user was queued before or has declared a category. *)
Lemma wellFormed_queues us mq fq mq' fq' :
  wellFormed {| users := us; maleQueue := mq; femaleQueue := fq |} →
  (∀ u, u ∈ mq' ++ fq' →
     u ∈ mq ++ fq ∨ ∃ st, us !! u = Some st ∧ Gender st ≠ ""%string) →
  wellFormed {| users := us; maleQueue := mq'; femaleQueue := fq' |}.
Proof.
  intros [Hq Hk Hg Hv Hw] C.
  split; unfold waitingUnpaired in *; cbn [users maleQueue femaleQueue] in *;
    eauto.
  intros u Hu. destruct (C u Hu) as [H|H]; auto.
Qed.

Lemma wellFormed_eta b :
  wellFormed b →
  wellFormed {| users := users b; maleQueue := maleQueue b;
                femaleQueue := femaleQueue b |}.
Proof. by destruct b. Qed.

Lemma getOrCreate_lookup userID b :
  ∃ st, users (getOrCreate userID b) !! userID = Some st.
Proof.
  unfold getOrCreate. destruct (users b !! userID) as [st|] eqn:H.
  - eauto.
  - exists zeroState. apply lookup_insert_eq.
Qed.

Lemma getOrCreate_known userID b st :
  users b !! userID = Some st → getOrCreate userID b = b.
Proof. intros H. unfold getOrCreate. by rewrite H. Qed.

Lemma wellFormed_getOrCreate userID b :
  wellFormed b → wellFormed (getOrCreate userID b).
Proof.
  intros Hwf. unfold getOrCreate.
  destruct (users b !! userID) as [st|] eqn:H; [done|].
  apply wellFormed_insert; cbn [Gender Partner Waiting zeroState];
    try done; [by apply wellFormed_eta| |by left|by intros [_ ?]].
  intros Hin. destruct (wf_queued _ Hwf _ Hin) as (st & Hst & _). congruence.
Qed.

Lemma wellFormed_setGender userID gender b b' out :
  gender = Male ∨ gender = Female →
  wellFormed b → setGender userID gender b = Some (b', out) → wellFormed b'.
Proof.
  intros Hg Hwf. unfold setGender, store.
  destruct (users b !! userID) as [st|] eqn:Hst; [|discriminate].
  cbn [mbind option_bind]. intros [= <- <-].
  assert (Hne : gender ≠ ""%string) by (destruct Hg as [->| ->]; done).
  apply wellFormed_insert; cbn [Gender Partner Waiting withGender];
    [by apply wellFormed_eta|done| |done|by right|].
  - intros Hp. destruct (decide (Partner st = userID)) as [->|Hn].
    + rewrite lookup_insert_eq. eauto.
    + rewrite lookup_insert_ne by done. eapply wf_partner_known; eauto.
  - exact (wf_waiting _ Hwf _ _ Hst).
Qed.

Lemma wellFormed_pairUp us m mq f fq sm sf :
  us !! m = Some sm → us !! f = Some sf →
  wellFormed {| users := us; maleQueue := m :: mq; femaleQueue := f :: fq |} →
  wellFormed {| users := pairUp m f sm sf us; maleQueue := mq; femaleQueue := fq |}.
Proof.
  intros Hm Hf Hwf.
  assert (Gm : Gender sm ≠ ""%string).
  { destruct (wf_queued _ Hwf m) as (st & Hst & G); [set_solver|].
    cbn in Hst. congruence. }
  assert (Gf : Gender sf ≠ ""%string).
  { destruct (wf_queued _ Hwf f) as (st & Hst & G); [set_solver|].
    cbn in Hst. congruence. }
  unfold pairUp.
  apply wellFormed_insert; cbn [Gender Partner Waiting];
    [|done| |done|exact (wf_gender _ Hwf _ _ Hf)|by intros [? _]].
  - apply wellFormed_insert; cbn [Gender Partner Waiting];
      [|done| |done|exact (wf_gender _ Hwf _ _ Hm)|by intros [? _]].
    + eapply wellFormed_queues; [exact Hwf|].
      intros u Hu. left. cbn [maleQueue femaleQueue].
      rewrite elem_of_app in Hu. rewrite elem_of_app, !elem_of_cons. tauto.
    + intros _. destruct (decide (m = f)) as [->|Hn].
      * rewrite lookup_insert_eq. eauto.
      * rewrite lookup_insert_ne by done. eauto.
  - intros _. destruct (decide (f = m)) as [->|Hn].
    + rewrite lookup_insert_eq. eauto.
    + rewrite lookup_insert_ne by done. rewrite lookup_insert_eq. eauto.
Qed.

Lemma wellFormed_matchLoop mq : ∀ us fq b' out,
  wellFormed {| users := us; maleQueue := mq; femaleQueue := fq |} →
  matchLoop us mq fq = Some (b', out) → wellFormed b'.
Proof.
  induction mq as [|m mq IH]; intros us fq b' out Hwf.
  - rewrite matchLoop_nil_l. by intros [= <- <-].
  - destruct fq as [|f fq].
    + rewrite matchLoop_nil_r. by intros [= <- <-].
    + destruct (us !! m) as [sm|] eqn:Hm;
        [|by rewrite matchLoop_cons_None by auto].
      destruct (us !! f) as [sf|] eqn:Hf;
        [|by rewrite matchLoop_cons_None by auto].
      rewrite (matchLoop_cons _ _ _ _ _ _ _ Hm Hf).
      intros (out' & H & _)%after_inv.
      eapply IH; [|exact H]. by apply wellFormed_pairUp.
Qed.

(** In a well-formed state the matching loop does not panic. *)
Lemma matchLoop_total mq : ∀ us fq,
  wellFormed {| users := us; maleQueue := mq; femaleQueue := fq |} →
  is_Some (matchLoop us mq fq).
Proof.
  induction mq as [|m mq IH]; intros us fq Hwf.
  - rewrite matchLoop_nil_l. eauto.
  - destruct fq as [|f fq].
    + rewrite matchLoop_nil_r. eauto.
    + destruct (wf_queued _ Hwf m) as (sm & Hm & _); [set_solver|].
      destruct (wf_queued _ Hwf f) as (sf & Hf & _); [set_solver|].
      cbn [users] in Hm, Hf.
      rewrite (matchLoop_cons _ _ _ _ _ _ _ Hm Hf).
      destruct (IH (pairUp m f sm sf us) fq) as [[b' out] H];
        [by apply wellFormed_pairUp|].
      rewrite H. cbn. eauto.
Qed.

Lemma wellFormed_matchUsers b b' out :
  wellFormed b → matchUsers b = Some (b', out) → wellFormed b'.
Proof.
  intros Hwf. unfold matchUsers.
  apply wellFormed_matchLoop. by apply wellFormed_eta.
Qed.

Lemma matchUsers_total b : wellFormed b → is_Some (matchUsers b).
Proof. intros Hwf. apply matchLoop_total. by apply wellFormed_eta. Qed.

Lemma startChat_unfold userID b state :
  users b !! userID = Some state →
  startChat userID b =
    if decide (Gender state = ""%string) then
      Some (b, [sendMessage userID txtChooseGenderFirst])
    else if decide (Partner state ≠ 0) then
      Some (b, [sendMessage userID txtAlreadyInChat])
    else after [sendMessage userID txtSearching]
           (matchUsers (enqueued userID state b)).
Proof.
  intros H. unfold startChat, enqueued, after. rewrite H.
  cbn [mbind option_bind]. repeat case_decide; reflexivity.
Qed.

Lemma wellFormed_enqueued userID state b :
  wellFormed b → users b !! userID = Some state →
  Gender state ≠ ""%string → Partner state = 0 →
  wellFormed (enqueued userID state b).
Proof.
  intros Hwf Hst Hg Hp.
  assert (Hins : wellFormed
            {| users := <[userID := withWaiting true state]> (users b);
               maleQueue := maleQueue b; femaleQueue := femaleQueue b |}).
  { apply wellFormed_insert; cbn [Gender Partner Waiting withWaiting];
      [by apply wellFormed_eta|done|done|done
      |exact (wf_gender _ Hwf _ _ Hst)|by intros [_ ?]]. }
  assert (Hme : ∃ st, <[userID := withWaiting true state]> (users b) !! userID
                        = Some st ∧ Gender st ≠ ""%string).
  { eexists. rewrite lookup_insert_eq. split; [reflexivity|done]. }
  unfold enqueued. cbn zeta. case_decide.
  - eapply wellFormed_queues; [exact Hins|].
    intros u. rewrite !elem_of_app, list_elem_of_singleton.
    intros [[?| ->]|?]; auto.
  - eapply wellFormed_queues; [exact Hins|].
    intros u. rewrite !elem_of_app, list_elem_of_singleton.
    intros [?|[?| ->]]; auto.
Qed.

Lemma wellFormed_startChat userID b b' out :
  wellFormed b → startChat userID b = Some (b', out) → wellFormed b'.
Proof.
  intros Hwf. destruct (users b !! userID) as [state|] eqn:Hst.
  - rewrite (startChat_unfold _ _ _ Hst).
    case_decide; [by intros [= <- <-]|].
    case_decide; [by intros [= <- <-]|].
    intros (out' & Hrest & _)%after_inv.
    eapply wellFormed_matchUsers; [|exact Hrest].
    apply wellFormed_enqueued; auto.
  - unfold startChat. by rewrite Hst.
Qed.

Lemma removeFirst_subset userID q r :
  removeFirst userID q = Some r → ∀ v, v ∈ r → v ∈ q.
Proof.
  revert r. induction q as [|id q IH]; intros r; cbn [removeFirst];
    [discriminate|].
  case_decide.
  - intros [= <-] v Hv. by apply elem_of_cons; right.
  - destruct (removeFirst userID q) as [r'|]; [|discriminate].
    intros [= <-] v. rewrite !elem_of_cons.
    intros [?|?]; [by left|right; by eapply IH].
Qed.

Lemma wellFormed_removeFromQueue userID b :
  wellFormed b → wellFormed (removeFromQueue userID b).
Proof.
  intros Hwf. apply wellFormed_eta in Hwf. unfold removeFromQueue.
  destruct (removeFirst userID (maleQueue b)) as [q|] eqn:Hm.
  - eapply wellFormed_queues; [exact Hwf|].
    intros u. rewrite !elem_of_app. intros [?|?]; left; auto.
    left. eapply removeFirst_subset; eauto.
  - destruct (removeFirst userID (femaleQueue b)) as [q|] eqn:Hf.
    + eapply wellFormed_queues; [exact Hwf|].
      intros u. rewrite !elem_of_app. intros [?|?]; left; auto.
      right. eapply removeFirst_subset; eauto.
    + by destruct b.
Qed.

Lemma wellFormed_clearPartner us mq fq k st :
  wellFormed {| users := us; maleQueue := mq; femaleQueue := fq |} →
  us !! k = Some st →
  wellFormed {| users := <[k := withPartner 0 st]> us;
                maleQueue := mq; femaleQueue := fq |}.
Proof.
  intros Hwf Hst.
  apply wellFormed_insert; cbn [Gender Partner Waiting withPartner];
    [done| |done|done|exact (wf_gender _ Hwf _ _ Hst)|by intros [_ ?]].
  intros Hin. destruct (wf_queued _ Hwf _ Hin) as (st' & Hst' & G).
  cbn [users] in Hst'. congruence.
Qed.

(** The state [stopChat] leaves behind when the caller has a partner. *)
Lemma stopChat_unfold userID b state :
  users b !! userID = Some state →
  stopChat userID b =
    if decide (Partner state = 0) then
      Some (b, [sendMessage userID txtNotInChatStop])
    else
      us ← store (Partner state) (withPartner 0)
             (<[userID := withPartner 0 state]> (users b));
      Some (removeFromQueue (Partner state)
              (removeFromQueue userID
                 {| users := us; maleQueue := maleQueue b;
                    femaleQueue := femaleQueue b |}),
            [sendMessage userID txtChatEnded;
             sendMessage (Partner state) txtPartnerEnded]).
Proof.
  intros H. unfold stopChat. rewrite H. cbn [mbind option_bind].
  case_decide; [reflexivity|].
  rewrite (store_Some _ _ _ _ H). reflexivity.
Qed.

Lemma wellFormed_stopChat userID b b' out :
  wellFormed b → stopChat userID b = Some (b', out) → wellFormed b'.
Proof.
  intros Hwf. destruct (users b !! userID) as [state|] eqn:Hst.
  - rewrite (stopChat_unfold _ _ _ Hst).
    case_decide; [by intros [= <- <-]|].
    unfold store.
    destruct (<[userID:=withPartner 0 state]> (users b) !! Partner state)
      as [sp|] eqn:Hsp; [|discriminate].
    cbn [mbind option_bind]. intros [= <- <-].
    do 2 apply wellFormed_removeFromQueue.
    apply wellFormed_clearPartner; [|exact Hsp].
    apply wellFormed_clearPartner; [|exact Hst].
    by apply wellFormed_eta.
  - unfold stopChat. by rewrite Hst.
Qed.

Lemma wellFormed_nextPartner userID b b' out :
  wellFormed b → nextPartner userID b = Some (b', out) → wellFormed b'.
Proof.
  intros Hwf. unfold nextPartner.
  destruct (stopChat userID b) as [[b1 out1]|] eqn:H1; [|discriminate].
  cbn [mbind option_bind].
  destruct (startChat userID b1) as [[b2 out2]|] eqn:H2; [|discriminate].
  cbn [mbind option_bind]. intros [= <- <-].
  eapply wellFormed_startChat; [|exact H2].
  eapply wellFormed_stopChat; [|exact H1]. done.
Qed.

Lemma forwardMessage_state userID text b b' out :
  forwardMessage userID text b = Some (b', out) → b' = b.
Proof.
  unfold forwardMessage. destruct (users b !! userID); [|discriminate].
  cbn [mbind option_bind]. case_decide; by intros [= <- <-].
Qed.

Lemma wellFormed_handleUpdate u b b' out :
  wellFormed b → handleUpdate u b = Some (b', out) → wellFormed b'.
Proof.
  intros Hwf. destruct u as [userID data queryID messageID|userID text|];
    cbn [handleUpdate].
  - unfold handleCallback. cbn zeta.
    pose proof (wellFormed_getOrCreate userID b Hwf) as Hwf0.
    destruct (if decide (data = "gender_male"%string) then _ else _)
      as [[b1 out1]|] eqn:H; [|discriminate].
    cbn [mbind option_bind]. intros [= <- <-].
    repeat case_decide.
    + eapply wellFormed_setGender; [|exact Hwf0|exact H]. by left.
    + eapply wellFormed_setGender; [|exact Hwf0|exact H]. by right.
    + eapply wellFormed_startChat; [exact Hwf0|exact H].
    + by injection H as <- <-.
  - pose proof (wellFormed_getOrCreate userID b Hwf) as Hwf0.
    repeat case_decide.
    + unfold handleStart. by intros [= <- <-].
    + by apply wellFormed_stopChat.
    + by apply wellFormed_nextPartner.
    + by intros ->%forwardMessage_state.
  - by intros [= <- <-].
Qed.

Lemma reachable_wellFormed b : reachable b → wellFormed b.
Proof.
  induction 1 as [|b u b' out _ IH H].
  - exact wellFormed_NewBot.
  - eapply wellFormed_handleUpdate; eauto.
Qed.

(** ** No handler panics in a well-formed state *)

Lemma removeFromQueue_users userID b :
  users (removeFromQueue userID b) = users b.
Proof.
  unfold removeFromQueue.
  destruct (removeFirst userID (maleQueue b)); [reflexivity|].
  destruct (removeFirst userID (femaleQueue b)); reflexivity.
Qed.

Lemma setGender_total userID gender b st :
  users b !! userID = Some st → is_Some (setGender userID gender b).
Proof.
  intros H. unfold setGender. rewrite (store_Some _ _ _ _ H).
  cbn [mbind option_bind]. eauto.
Qed.

Lemma startChat_total userID b st :
  wellFormed b → users b !! userID = Some st → is_Some (startChat userID b).
Proof.
  intros Hwf Hst. rewrite (startChat_unfold _ _ _ Hst).
  case_decide; [eauto|]. case_decide; [eauto|].
  destruct (matchUsers_total (enqueued userID st b)) as [[b' out] ->].
  - apply wellFormed_enqueued; auto.
  - rewrite after_Some. eauto.
Qed.

Lemma stopChat_total userID b st :
  wellFormed b → users b !! userID = Some st → is_Some (stopChat userID b).
Proof.
  intros Hwf Hst. rewrite (stopChat_unfold _ _ _ Hst).
  case_decide as Hp; [eauto|].
  assert (Hk : is_Some (<[userID := withPartner 0 st]> (users b) !! Partner st)).
  { destruct (decide (Partner st = userID)) as [->|Hn].
    - rewrite lookup_insert_eq. eauto.
    - rewrite lookup_insert_ne by done. eapply wf_partner_known; eauto. }
  destruct Hk as [sp Hsp]. rewrite (store_Some _ _ _ _ Hsp).
  cbn [mbind option_bind]. eauto.
Qed.

(** [stopChat] never removes a user from the table. *)
Lemma stopChat_keeps_users userID b b' out v :
  stopChat userID b = Some (b', out) →
  is_Some (users b !! v) → is_Some (users b' !! v).
Proof.
  destruct (users b !! userID) as [st|] eqn:Hst;
    [|unfold stopChat; by rewrite Hst].
  rewrite (stopChat_unfold _ _ _ Hst). case_decide; [by intros [= <- <-]|].
  unfold store.
  destruct (<[userID:=withPartner 0 st]> (users b) !! Partner st)
    as [sp|] eqn:Hsp; [|discriminate].
  cbn [mbind option_bind]. intros [= <- <-] Hv.
  rewrite !removeFromQueue_users. cbn [users].
  destruct (decide (v = Partner st)) as [->|Hn1];
    [rewrite lookup_insert_eq; eauto|].
  rewrite lookup_insert_ne by done.
  destruct (decide (v = userID)) as [->|Hn2];
    [rewrite lookup_insert_eq; eauto|].
  by rewrite lookup_insert_ne.
Qed.

Lemma nextPartner_total userID b st :
  wellFormed b → users b !! userID = Some st → is_Some (nextPartner userID b).
Proof.
  intros Hwf Hst. unfold nextPartner.
  destruct (stopChat_total _ _ _ Hwf Hst) as [[b1 out1] H1]. rewrite H1.
  cbn [mbind option_bind].
  destruct (stopChat_keeps_users _ _ _ _ userID H1) as [st1 Hst1]; [eauto|].
  destruct (startChat_total userID b1 st1) as [[b2 out2] H2];
    [by eapply wellFormed_stopChat|done|].
  rewrite H2. cbn [mbind option_bind]. eauto.
Qed.

Lemma forwardMessage_total userID text b st :
  users b !! userID = Some st → is_Some (forwardMessage userID text b).
Proof.
  intros H. unfold forwardMessage. rewrite H. cbn [mbind option_bind].
  case_decide; eauto.
Qed.

(** The event loop never panics: in a well-formed state every update is
    handled to completion. *)
Lemma handleUpdate_total u b : wellFormed b → is_Some (handleUpdate u b).
Proof.
  intros Hwf. destruct u as [userID data queryID messageID|userID text|];
    cbn [handleUpdate]; [| |eauto].
  - unfold handleCallback. cbn zeta.
    pose proof (wellFormed_getOrCreate userID b Hwf) as Hwf0.
    destruct (getOrCreate_lookup userID b) as [st Hst].
    assert (Hs : is_Some
      (if decide (data = "gender_male"%string)
       then setGender userID Male (getOrCreate userID b)
       else if decide (data = "gender_female"%string)
       then setGender userID Female (getOrCreate userID b)
       else if decide (data = "start_chat"%string)
       then startChat userID (getOrCreate userID b)
       else Some (getOrCreate userID b, []))).
    { repeat case_decide; eauto using setGender_total, startChat_total. }
    destruct Hs as [[b1 out1] ->]. cbn [mbind option_bind]. eauto.
  - pose proof (wellFormed_getOrCreate userID b Hwf) as Hwf0.
    destruct (getOrCreate_lookup userID b) as [st Hst].
    repeat case_decide;
      eauto using stopChat_total, nextPartner_total, forwardMessage_total.
Qed.

(** ** Traces *)

Lemma run_reachable us : ∀ b b' out,
  reachable b → run us b = Some (b', out) → reachable b'.
Proof.
  induction us as [|u us IH]; intros b b' out Hb; cbn [run].
  - by intros [= <- <-].
  - destruct (handleUpdate u b) as [[b1 out1]|] eqn:H1; [|discriminate].
    cbn [mbind option_bind].
    destruct (run us b1) as [[b2 out2]|] eqn:H2; [|discriminate].
    cbn [mbind option_bind]. intros [= <- <-].
    eapply IH; [|exact H2]. eapply reach_step; eauto.
Qed.

Lemma reachable_run b :
  reachable b → ∃ us out, run us NewBot = Some (b, out).
Proof.
  assert (Hsnoc : ∀ us u b0 b1 b2 o1 o2,
    run us b0 = Some (b1, o1) → handleUpdate u b1 = Some (b2, o2) →
    run (us ++ [u]) b0 = Some (b2, o1 ++ o2)).
  { induction us as [|u0 us IH]; intros u b0 b1 b2 o1 o2; cbn [run app].
    - intros [= <- <-] ->. cbn. by rewrite app_nil_r.
    - destruct (handleUpdate u0 b0) as [[b3 o3]|]; [|discriminate].
      cbn [mbind option_bind].
      destruct (run us b3) as [[b4 o4]|] eqn:H4; [|discriminate].
      cbn [mbind option_bind]. intros [= <- <-] H.
      rewrite (IH _ _ _ _ _ _ H4 H). cbn. by rewrite app_assoc. }
  induction 1 as [|b u b' out _ (us & o & IH) H].
  - by exists [], [].
  - exists (us ++ [u]), (o ++ out). eapply Hsnoc; eauto.
Qed.

(** Every finite prefix of the update channel is handled to completion. *)
Lemma run_total us : ∀ b, wellFormed b → is_Some (run us b).
Proof.
  induction us as [|u us IH]; intros b Hwf; cbn [run]; [eauto|].
  destruct (handleUpdate_total u b Hwf) as [[b1 out1] H1]. rewrite H1.
  cbn [mbind option_bind].
  destruct (IH b1) as [[b2 out2] H2]; [by eapply wellFormed_handleUpdate|].
  rewrite H2. cbn [mbind option_bind]. eauto.
Qed.

Lemma afterTrace_reachable us : reachable (afterTrace us).
Proof.
  unfold afterTrace. destruct (run us NewBot) as [[b out]|] eqn:H.
  - eapply run_reachable; [apply reach_init|exact H].
  - apply reach_init.
Qed.

(** ** Facts about the handlers used by the claims *)

Lemma txtSearching_not_refusal :
  txtSearching ≠ txtChooseGenderFirst ∧ txtSearching ≠ txtAlreadyInChat ∧
  txtAlreadyInChat ≠ txtChooseGenderFirst.
Proof. repeat split; discriminate. Qed.

Lemma enqueued_spec userID state b :
  users (enqueued userID state b)
    = <[userID := withWaiting true state]> (users b) ∧
  queueOf (Gender state) (enqueued userID state b)
    = queueOf (Gender state) b ++ [userID] ∧
  oppositeQueueOf (Gender state) (enqueued userID state b)
    = oppositeQueueOf (Gender state) b.
Proof.
  unfold enqueued, queueOf, oppositeQueueOf. cbn zeta.
  destruct (decide (Gender state = Male)); done.
Qed.

Lemma handleUpdate_start_chat c b sc :
  users b !! c = Some sc →
  handleUpdate (pick "start_chat" c) b =
    '(b1, out) ← startChat c b;
    Some (b1, out ++ [AnswerCallback "q"; DeleteMessage c 1]).
Proof.
  intros Hc. unfold pick. cbn [handleUpdate]. unfold handleCallback. cbn zeta.
  rewrite (getOrCreate_known _ _ _ Hc).
  rewrite decide_False by discriminate.
  rewrite decide_False by discriminate.
  rewrite decide_True by reflexivity. reflexivity.
Qed.

Lemma elem_of_take_list (x : Z) (n : nat) (l : list Z) :
  x ∈ take n l → x ∈ l.
Proof.
  intros H. rewrite <- (take_drop n l). apply elem_of_app. by left.
Qed.

(** A caller who finds its own queue empty and user [u] at the head of the
    opposite queue is paired with [u]; nobody else is touched. *)
Lemma startChat_pairs_head b c sc u rest su :
  users b !! c = Some sc → Gender sc ≠ ""%string → Partner sc = 0 →
  queueOf (Gender sc) b = [] → oppositeQueueOf (Gender sc) b = u :: rest →
  users b !! u = Some su → u ≠ c →
  ∃ b' out, startChat c b = Some (b', out) ∧
    queueOf (Gender sc) b' = [] ∧ oppositeQueueOf (Gender sc) b' = rest ∧
    users b' !! u
      = Some {| Gender := Gender su; Partner := c; Waiting := false |} ∧
    users b' !! c
      = Some {| Gender := Gender sc; Partner := u; Waiting := false |} ∧
    (∀ v, v ≠ u → v ≠ c → users b' !! v = users b !! v).
Proof.
  intros Hc Hg Hp Hown Hopp Hu Hne.
  assert (Hcu : c ≠ u) by congruence.
  rewrite (startChat_unfold _ _ _ Hc).
  rewrite decide_False by done.
  rewrite decide_False by (intros Hn; by apply Hn).
  unfold matchUsers, enqueued, queueOf, oppositeQueueOf in *. cbn zeta.
  set (us1 := <[c := withWaiting true sc]> (users b)).
  assert (H1c : us1 !! c = Some (withWaiting true sc))
    by apply lookup_insert_eq.
  assert (H1u : us1 !! u = Some su)
    by (unfold us1; by rewrite lookup_insert_ne).
  destruct (decide (Gender sc = Male)) as [Hm|Hm];
    cbn [users maleQueue femaleQueue]; rewrite Hown, Hopp; cbn [app].
  - rewrite (matchLoop_cons _ _ _ _ _ _ _ H1c H1u), matchLoop_nil_l.
    rewrite !after_Some. eexists _, _. split; [reflexivity|].
    cbn [users maleQueue femaleQueue]. unfold pairUp.
    split; [done|]. split; [done|]. split; [by rewrite lookup_insert_eq|].
    split.
    + rewrite lookup_insert_ne by done. by rewrite lookup_insert_eq.
    + intros v Hvu Hvc. rewrite !lookup_insert_ne by done.
      unfold us1. by rewrite lookup_insert_ne.
  - rewrite (matchLoop_cons _ _ _ _ _ _ _ H1u H1c), matchLoop_nil_r.
    rewrite !after_Some. eexists _, _. split; [reflexivity|].
    cbn [users maleQueue femaleQueue]. unfold pairUp.
    split; [done|]. split; [done|]. split.
    + rewrite lookup_insert_ne by done. by rewrite lookup_insert_eq.
    + split; [by rewrite lookup_insert_eq|].
      intros v Hvu Hvc. rewrite !lookup_insert_ne by done.
      unfold us1. by rewrite lookup_insert_ne.
Qed.

Lemma removeFirst_absent userID q : userID ∉ q → removeFirst userID q = None.
Proof.
  induction q as [|id q IH]; [done|]. intros Hq.
  apply not_elem_of_cons in Hq as [Hne Hq]. cbn [removeFirst].
  rewrite decide_False by congruence. by rewrite IH.
Qed.

Lemma removeFromQueue_absent userID b :
  userID ∉ (maleQueue b ++ femaleQueue b) → removeFromQueue userID b = b.
Proof.
  intros Hq. apply not_elem_of_app in Hq as [Hm Hf]. unfold removeFromQueue.
  by rewrite (removeFirst_absent _ _ Hm), (removeFirst_absent _ _ Hf).
Qed.

Lemma pairUp_lookup m f sm sf (us : gmap Z UserState) :
  us !! m = Some sm → us !! f = Some sf →
  pairUp m f sm sf us !! m
    = Some {| Gender := Gender sm; Partner := f; Waiting := false |} ∧
  pairUp m f sm sf us !! f
    = Some {| Gender := Gender sf; Partner := m; Waiting := false |} ∧
  (∀ v, v ≠ m → v ≠ f → pairUp m f sm sf us !! v = us !! v).
Proof.
  intros Hm Hf. unfold pairUp. split; [|split].
  - destruct (decide (m = f)) as [->|Hne].
    + rewrite lookup_insert_eq. congruence.
    + rewrite lookup_insert_ne by congruence. by rewrite lookup_insert_eq.
  - by rewrite lookup_insert_eq.
  - intros v Hvm Hvf. by rewrite !lookup_insert_ne by congruence.
Qed.

Lemma pairUp_keeps_users m f sm sf (us : gmap Z UserState) v :
  is_Some (us !! v) → is_Some (pairUp m f sm sf us !! v).
Proof.
  intros Hv. unfold pairUp.
  destruct (decide (v = f)) as [->|Hf]; [rewrite lookup_insert_eq; eauto|].
  rewrite lookup_insert_ne by congruence.
  destruct (decide (v = m)) as [->|Hm]; [rewrite lookup_insert_eq; eauto|].
  by rewrite lookup_insert_ne by congruence.
Qed.

Lemma matchLoop_result mq : ∀ us fq,
  (∀ u, u ∈ mq ++ fq → is_Some (us !! u)) →
  ∃ b',
    matchLoop us mq fq = Some (b', flat_map matchedNotices (zip mq fq)) ∧
    maleQueue b' = drop (List.length mq `min` List.length fq) mq ∧
    femaleQueue b' = drop (List.length mq `min` List.length fq) fq ∧
    (maleQueue b' = [] ∨ femaleQueue b' = []).
Proof.
  induction mq as [|m mq IH]; intros us fq Hreg.
  - rewrite matchLoop_nil_l. eexists. split; [reflexivity|]. cbn. auto.
  - destruct fq as [|f fq].
    + rewrite matchLoop_nil_r. eexists. split; [reflexivity|]. cbn. auto.
    + destruct (Hreg m) as [sm Hm]; [by apply elem_of_cons; left|].
      destruct (Hreg f) as [sf Hf].
      { apply elem_of_app. right. by apply elem_of_cons; left. }
      rewrite (matchLoop_cons _ _ _ _ _ _ _ Hm Hf).
      destruct (IH (pairUp m f sm sf us) fq) as (b' & Hrun & Hmq & Hfq & Hend).
      { intros u Hu. apply pairUp_keeps_users, Hreg.
        apply elem_of_app in Hu as [Hu|Hu]; apply elem_of_app.
        - left. by apply elem_of_cons; right.
        - right. by apply elem_of_cons; right. }
      exists b'. rewrite Hrun, after_Some. split; [reflexivity|].
      cbn [List.length Nat.min drop]. auto.
Qed.

(** ** At most one queue is non-empty between two updates *)

Lemma removeFromQueue_one_empty userID b :
  maleQueue b = [] ∨ femaleQueue b = [] →
  maleQueue (removeFromQueue userID b) = [] ∨
  femaleQueue (removeFromQueue userID b) = [].
Proof.
  unfold removeFromQueue. intros [Hm|Hf].
  - rewrite Hm. cbn [removeFirst].
    destruct (removeFirst userID (femaleQueue b)); cbn; auto.
  - rewrite Hf. cbn [removeFirst].
    destruct (removeFirst userID (maleQueue b)); cbn; auto.
Qed.

Lemma matchUsers_one_empty b b' out :
  wellFormed b → matchUsers b = Some (b', out) →
  maleQueue b' = [] ∨ femaleQueue b' = [].
Proof.
  intros Hwf Hrun.
  destruct (matchLoop_result (maleQueue b) (users b) (femaleQueue b))
    as (b1 & Hrun1 & _ & _ & Hend).
  { intros u Hu. destruct (wf_queued _ Hwf _ Hu) as (st & Hst & _). eauto. }
  unfold matchUsers in Hrun. congruence.
Qed.

Lemma startChat_one_empty userID b b' out :
  wellFormed b → maleQueue b = [] ∨ femaleQueue b = [] →
  startChat userID b = Some (b', out) →
  maleQueue b' = [] ∨ femaleQueue b' = [].
Proof.
  intros Hwf Hone. destruct (users b !! userID) as [state|] eqn:Hst;
    [|unfold startChat; by rewrite Hst].
  rewrite (startChat_unfold _ _ _ Hst).
  case_decide; [by intros [= <- <-]|].
  case_decide; [by intros [= <- <-]|].
  intros (out' & Hrest & _)%after_inv.
  eapply matchUsers_one_empty; [|exact Hrest].
  apply wellFormed_enqueued; auto.
Qed.

Lemma stopChat_one_empty userID b b' out :
  maleQueue b = [] ∨ femaleQueue b = [] →
  stopChat userID b = Some (b', out) →
  maleQueue b' = [] ∨ femaleQueue b' = [].
Proof.
  intros Hone. destruct (users b !! userID) as [state|] eqn:Hst;
    [|unfold stopChat; by rewrite Hst].
  rewrite (stopChat_unfold _ _ _ Hst).
  case_decide; [by intros [= <- <-]|].
  destruct (store _ _ _) as [us|]; [|discriminate].
  cbn [mbind option_bind]. intros [= <- <-].
  by do 2 apply removeFromQueue_one_empty.
Qed.

Lemma setGender_queues userID gender b b' out :
  setGender userID gender b = Some (b', out) →
  maleQueue b' = maleQueue b ∧ femaleQueue b' = femaleQueue b.
Proof.
  unfold setGender. destruct (store _ _ _) as [us|]; [|discriminate].
  cbn [mbind option_bind]. by intros [= <- <-].
Qed.

(** Whenever the bot waits for the next update, one of the two queues is
    empty: [matchUsers] has run after the last enqueue.  In particular no
    identifier stands in both queues at that point. *)
Lemma reachable_one_queue_empty b :
  reachable b → maleQueue b = [] ∨ femaleQueue b = [].
Proof.
  induction 1 as [|b u b' out Hb IH H]; [by left|].
  pose proof (reachable_wellFormed _ Hb) as Hwf.
  pose proof (wellFormed_getOrCreate) as Hwf0.
  assert (Hone0 : ∀ userID, maleQueue (getOrCreate userID b) = [] ∨
                            femaleQueue (getOrCreate userID b) = []).
  { intros userID. unfold getOrCreate. by destruct (users b !! userID). }
  destruct u as [userID data queryID messageID|userID text|];
    cbn [handleUpdate] in H.
  - unfold handleCallback in H. cbn zeta in H.
    destruct (if decide (data = "gender_male"%string) then _ else _)
      as [[b1 out1]|] eqn:Hd; [|discriminate].
    cbn [mbind option_bind] in H. injection H as <- <-.
    repeat case_decide.
    + apply setGender_queues in Hd as [-> ->]. apply Hone0.
    + apply setGender_queues in Hd as [-> ->]. apply Hone0.
    + eapply startChat_one_empty; [apply Hwf0, Hwf|apply Hone0|exact Hd].
    + injection Hd as <- <-. apply Hone0.
  - repeat case_decide.
    + unfold handleStart in H. injection H as <- <-. apply Hone0.
    + eapply stopChat_one_empty; [apply Hone0|exact H].
    + unfold nextPartner in H.
      destruct (stopChat userID (getOrCreate userID b)) as [[b1 out1]|]
        eqn:Hstop; [|discriminate].
      cbn [mbind option_bind] in H.
      destruct (startChat userID b1) as [[b2 out2]|] eqn:Hstart;
        [|discriminate].
      cbn [mbind option_bind] in H. injection H as <- <-.
      eapply startChat_one_empty; [| |exact Hstart].
      * eapply wellFormed_stopChat; [apply Hwf0, Hwf|exact Hstop].
      * eapply stopChat_one_empty; [apply Hone0|exact Hstop].
    + apply forwardMessage_state in H as ->. apply Hone0.
  - injection H as <- <-. exact IH.
Qed.

(** ** A successful search always changes the queues *)

(** When [startChat] gets as far as the enqueue, the number of queued
    entries afterwards differs from the number before: one entry is added
    and [matchUsers] removes entries two by two. *)
Lemma startChat_changes_queues userID b state :
  wellFormed b → users b !! userID = Some state →
  Gender state ≠ ""%string → Partner state = 0 →
  ∃ b' out,
    matchUsers (enqueued userID state b) = Some (b', out) ∧
    startChat userID b = Some (b', sendMessage userID txtSearching :: out) ∧
    List.length (maleQueue b' ++ femaleQueue b')
      ≠ List.length (maleQueue b ++ femaleQueue b).
Proof.
  intros Hwf Hst Hg Hp.
  pose proof (wellFormed_enqueued _ _ _ Hwf Hst Hg Hp) as Hwf1.
  destruct (matchLoop_result (maleQueue (enqueued userID state b))
              (users (enqueued userID state b))
              (femaleQueue (enqueued userID state b)))
    as (b' & Hrun & Hmq & Hfq & _).
  { intros u Hu. destruct (wf_queued _ Hwf1 _ Hu) as (st & Hu' & _). eauto. }
  eexists b', _. split; [exact Hrun|]. split.
  - rewrite (startChat_unfold _ _ _ Hst).
    rewrite decide_False by done.
    rewrite decide_False by (intros Hn; by apply Hn).
    unfold matchUsers. rewrite Hrun. reflexivity.
  - rewrite Hmq, Hfq. rewrite !length_app, !length_drop.
    unfold enqueued. cbn zeta. case_decide;
      cbn [maleQueue femaleQueue]; rewrite length_app; cbn [List.length]; lia.
Qed.

(** * The claims *)

(** C1 (partner symmetry in every reachable state) does not hold of the
    code.  After user 7 sends /next while waiting, 7 stands twice in the male
    queue; the first woman to arrive (8) is paired with 7, and so is the
    second (9), whose pairing overwrites 7's partner: in the state reached,
    8's partner is 7 while 7's partner is 9. *)
Theorem partner_symmetry_violated :
  reachable (afterTrace traceTwoArrivals) ∧
  users (afterTrace traceTwoArrivals) !! 8
    = Some {| Gender := Female; Partner := 7; Waiting := false |} ∧
  users (afterTrace traceTwoArrivals) !! 7
    = Some {| Gender := Male; Partner := 9; Waiting := false |} ∧
  ¬ partnerSymmetric (afterTrace traceTwoArrivals).
Proof.
  assert (H8 : users (afterTrace traceTwoArrivals) !! 8
    = Some {| Gender := Female; Partner := 7; Waiting := false |})
    by (vm_compute; reflexivity).
  assert (H7 : users (afterTrace traceTwoArrivals) !! 7
    = Some {| Gender := Male; Partner := 9; Waiting := false |})
    by (vm_compute; reflexivity).
  split; [apply afterTrace_reachable|]. do 2 (split; [assumption|]).
  intros Hsym.
  destruct (Hsym 8 7 _ H8 eq_refl) as (st & Hst & Hp); [done|].
  rewrite H7 in Hst. injection Hst as <-. discriminate Hp.
Qed.

(** C2 (queue uniqueness in every reachable state) does not hold of the
    code.  [startChat] appends the caller to a queue without looking at
    [Waiting] or at the queues, so a user who sends /next while waiting is
    queued a second time. *)
Theorem queue_uniqueness_violated :
  reachable (afterTrace traceNextWhileWaiting) ∧
  maleQueue (afterTrace traceNextWhileWaiting) = [7; 7] ∧
  ¬ queuesUnique (afterTrace traceNextWhileWaiting).
Proof.
  assert (H : maleQueue (afterTrace traceNextWhileWaiting) = [7; 7])
    by (vm_compute; reflexivity).
  split; [apply afterTrace_reachable|]. split; [exact H|].
  unfold queuesUnique. rewrite H. intros Hnd.
  apply NoDup_app in Hnd as [Hnd _].
  apply NoDup_cons in Hnd as [Hnotin _].
  apply Hnotin. by apply elem_of_cons; left.
Qed.

(** C3 as stated does not hold of the code: the claim has [matchUsers]
    check that the two dequeued users are not already paired, but the loop
    body contains no test.  In the state in which user 9's [startChat] calls
    [matchUsers], user 7 is at the head of the male queue and already paired
    with 8; the loop pairs 7 with 9 all the same. *)
Lemma matchUsers_overwrites_partner :
  ¬ (∀ b0 userID state b' out u st st',
       reachable b0 → users b0 !! userID = Some state →
       Gender state ≠ ""%string → Partner state = 0 →
       matchUsers (enqueued userID state b0) = Some (b', out) →
       users (enqueued userID state b0) !! u = Some st → Partner st ≠ 0 →
       users b' !! u = Some st' → Partner st' = Partner st).
Proof.
  intros Hclaim.
  set (b0 := afterTrace traceSecondArrival).
  set (s9 := {| Gender := Female; Partner := 0; Waiting := false |}).
  assert (H9 : users b0 !! 9 = Some s9) by (vm_compute; reflexivity).
  assert (H7 : users (enqueued 9 s9 b0) !! 7
    = Some {| Gender := Male; Partner := 8; Waiting := false |})
    by (vm_compute; reflexivity).
  assert (H7' : (λ r, users r.1 !! 7) <$> matchUsers (enqueued 9 s9 b0)
    = Some (Some {| Gender := Male; Partner := 9; Waiting := false |}))
    by (vm_compute; reflexivity).
  destruct (matchUsers (enqueued 9 s9 b0)) as [[b' out]|] eqn:Hm;
    [|discriminate].
  injection H7' as H7'. cbn [fst] in H7'.
  assert (Hg : Gender s9 ≠ ""%string) by discriminate.
  assert (Hp : Partner {| Gender := Male; Partner := 8; Waiting := false |} ≠ 0)
    by discriminate.
  pose proof (Hclaim b0 9 s9 b' out 7 _ _ (afterTrace_reachable _) H9 Hg
                eq_refl Hm H7 Hp H7') as Habs.
  discriminate Habs.
Qed.

(** C3, amended: [matchUsers] does nothing when one of the queues is empty;
    otherwise it removes the head of each queue, makes each of the two the
    partner of the other and clears [Waiting] on both -- whatever their
    partners were, nothing is checked -- sends each the "partner found"
    notice, and goes on with the remaining queues.  When every queued user is
    known it runs until one queue is empty: both queues lose as many heads
    as the shorter one holds, and the notices go out pair by pair. *)
Theorem matchUsers_pairs_heads b :
  (maleQueue b = [] ∨ femaleQueue b = [] → matchUsers b = Some (b, [])) ∧
  (∀ m mq f fq sm sf,
     maleQueue b = m :: mq → femaleQueue b = f :: fq →
     users b !! m = Some sm → users b !! f = Some sf →
     ∃ us',
       us' !! m = Some {| Gender := Gender sm; Partner := f; Waiting := false |} ∧
       us' !! f = Some {| Gender := Gender sf; Partner := m; Waiting := false |} ∧
       (∀ v, v ≠ m → v ≠ f → us' !! v = users b !! v) ∧
       matchUsers b =
         after [sendMessage m txtMatched; sendMessage f txtMatched]
           (matchUsers {| users := us'; maleQueue := mq; femaleQueue := fq |})) ∧
  ((∀ u, u ∈ maleQueue b ++ femaleQueue b → is_Some (users b !! u)) →
     ∃ b',
       matchUsers b
         = Some (b', flat_map matchedNotices
                       (zip (maleQueue b) (femaleQueue b))) ∧
       maleQueue b'
         = drop (List.length (maleQueue b) `min` List.length (femaleQueue b))
             (maleQueue b) ∧
       femaleQueue b'
         = drop (List.length (maleQueue b) `min` List.length (femaleQueue b))
             (femaleQueue b) ∧
       (maleQueue b' = [] ∨ femaleQueue b' = [])).
Proof.
  unfold matchUsers. split; [|split].
  - destruct b as [us mq fq]. cbn [users maleQueue femaleQueue].
    intros [-> | ->]; [apply matchLoop_nil_l|apply matchLoop_nil_r].
  - intros m mq f fq sm sf -> -> Hm Hf.
    destruct (pairUp_lookup _ _ _ _ _ Hm Hf) as (L1 & L2 & L3).
    exists (pairUp m f sm sf (users b)).
    split; [exact L1|]. split; [exact L2|]. split; [exact L3|].
    cbn [users maleQueue femaleQueue]. by apply matchLoop_cons.
  - apply matchLoop_result.
Qed.

Lemma matchUsers_pairs_heads_witness :
  matchUsers NewBot = Some (NewBot, []) ∧
  maleQueue entryThreeWaiting = [1; 2; 3] ∧
  femaleQueue entryThreeWaiting = [4] ∧
  users entryThreeWaiting !! 1
    = Some {| Gender := Male; Partner := 0; Waiting := true |} ∧
  users entryThreeWaiting !! 4
    = Some {| Gender := Female; Partner := 0; Waiting := true |} ∧
  (∀ u, u ∈ maleQueue entryThreeWaiting ++ femaleQueue entryThreeWaiting →
     is_Some (users entryThreeWaiting !! u)) ∧
  (∃ us',
     us' !! 1 = Some {| Gender := Male; Partner := 4; Waiting := false |} ∧
     us' !! 4 = Some {| Gender := Female; Partner := 1; Waiting := false |} ∧
     matchUsers entryThreeWaiting =
       after [sendMessage 1 txtMatched; sendMessage 4 txtMatched]
         (matchUsers {| users := us'; maleQueue := [2; 3];
                        femaleQueue := [] |})) ∧
  ∃ b',
    matchUsers entryThreeWaiting
      = Some (b', [sendMessage 1 txtMatched; sendMessage 4 txtMatched]) ∧
    maleQueue b' = [2; 3] ∧ femaleQueue b' = [].
Proof.
  split; [exact (proj1 (matchUsers_pairs_heads NewBot) (or_introl eq_refl))|].
  set (b := entryThreeWaiting).
  assert (Hm : maleQueue b = [1; 2; 3]) by (vm_compute; reflexivity).
  assert (Hf : femaleQueue b = [4]) by (vm_compute; reflexivity).
  assert (H1 : users b !! 1
    = Some {| Gender := Male; Partner := 0; Waiting := true |})
    by (vm_compute; reflexivity).
  assert (H4 : users b !! 4
    = Some {| Gender := Female; Partner := 0; Waiting := true |})
    by (vm_compute; reflexivity).
  assert (Hreg : ∀ u, u ∈ maleQueue b ++ femaleQueue b →
            is_Some (users b !! u)).
  { rewrite Hm, Hf. intros u Hu.
    repeat (apply elem_of_cons in Hu as [->|Hu]);
      [| | | |by apply elem_of_nil in Hu]; vm_compute; eauto. }
  do 5 (split; [assumption|]).
  destruct (matchUsers_pairs_heads b) as (_ & Hstep & Hall). split.
  - destruct (Hstep 1 [2; 3] 4 [] _ _ Hm Hf H1 H4) as (us' & L1 & L2 & _ & E).
    exists us'. auto.
  - destruct (Hall Hreg) as (b' & Hrun & Hmq & Hfq & _).
    exists b'. rewrite Hrun, Hmq, Hfq, Hm, Hf. done.
Defined.

(** C4: in every reachable state no user is both waiting and paired:
    waiting implies that there is no partner, and a partner implies that the
    user is not waiting. *)
Theorem waiting_excludes_partner b u st :
  reachable b → users b !! u = Some st →
  ¬ (Waiting st = true ∧ Partner st ≠ 0) ∧
  (Waiting st = true → Partner st = 0) ∧
  (Partner st ≠ 0 → Waiting st = false).
Proof.
  intros Hb Hst.
  pose proof (wf_waiting _ (reachable_wellFormed _ Hb) _ _ Hst) as H.
  split; [exact H|]. split.
  - intros Hw. destruct (decide (Partner st = 0)); [done|]. by destruct H.
  - intros Hp. destruct (Waiting st); [|done]. by destruct H.
Qed.

Lemma waiting_excludes_partner_witness :
  (reachable (afterTrace traceOneWaiting) ∧
   users (afterTrace traceOneWaiting) !! 7
     = Some {| Gender := Male; Partner := 0; Waiting := true |} ∧
   (Waiting {| Gender := Male; Partner := 0; Waiting := true |} = true →
    Partner {| Gender := Male; Partner := 0; Waiting := true |} = 0)) ∧
  (reachable (afterTrace traceTwoArrivals) ∧
   users (afterTrace traceTwoArrivals) !! 7
     = Some {| Gender := Male; Partner := 9; Waiting := false |} ∧
   (Partner {| Gender := Male; Partner := 9; Waiting := false |} ≠ 0 →
    Waiting {| Gender := Male; Partner := 9; Waiting := false |} = false)).
Proof.
  assert (H : users (afterTrace traceOneWaiting) !! 7
    = Some {| Gender := Male; Partner := 0; Waiting := true |})
    by (vm_compute; reflexivity).
  assert (H' : users (afterTrace traceTwoArrivals) !! 7
    = Some {| Gender := Male; Partner := 9; Waiting := false |})
    by (vm_compute; reflexivity).
  split.
  - split; [apply afterTrace_reachable|]. split; [exact H|].
    exact (proj1 (proj2 (waiting_excludes_partner _ _ _
             (afterTrace_reachable traceOneWaiting) H))).
  - split; [apply afterTrace_reachable|]. split; [exact H'|].
    exact (proj2 (proj2 (waiting_excludes_partner _ _ _
             (afterTrace_reachable traceTwoArrivals) H'))).
Defined.

(** C5: matching is first come, first served.  Let the users of [q] wait in
    one queue, in that order, the other queue being empty, and let the users
    of [arrivals], who belong to the opposite category and have no partner,
    start a search one after the other.  Then the i-th arrival is paired
    with the i-th user of [q]; the users of [q] beyond the last arrival stay
    in the queue in their original order, and their records, like those of
    every user not involved, are untouched.  With one arrival, only the head
    of [q] is paired. *)
Theorem fifo_matching (g : UserGender) (arrivals : list Z) :
  ∀ (b : Bot) (q : list Z),
  g = Male ∨ g = Female →
  oppositeQueueOf g b = q → queueOf g b = [] →
  NoDup (q ++ arrivals) →
  (∀ u, u ∈ q → is_Some (users b !! u)) →
  (∀ c, c ∈ arrivals →
     ∃ sc, users b !! c = Some sc ∧ Gender sc = g ∧ Partner sc = 0) →
  (List.length arrivals ≤ List.length q)%nat →
  ∃ b' out,
    run (map (pick "start_chat") arrivals) b = Some (b', out) ∧
    oppositeQueueOf g b' = drop (List.length arrivals) q ∧
    queueOf g b' = [] ∧
    (∀ (i : nat) u c, q !! i = Some u → arrivals !! i = Some c →
       ∃ su sc,
         users b' !! u = Some su ∧ Partner su = c ∧ Waiting su = false ∧
         users b' !! c = Some sc ∧ Partner sc = u ∧ Waiting sc = false) ∧
    (∀ v, v ∉ take (List.length arrivals) q → v ∉ arrivals →
       users b' !! v = users b !! v).
Proof.
  induction arrivals as [|c cs IH]; intros b q Hg Hopp Hown Hnd Hq Hcs Hlen.
  - exists b, []. cbn [map run List.length]. rewrite drop_0.
    split; [done|]. split; [done|]. split; [done|]. split; [|done].
    intros i u c _ Hc. by rewrite lookup_nil in Hc.
  - destruct q as [|u rest]; [cbn in Hlen; lia|].
    apply NoDup_app in Hnd as (Hndq & Hdisj & Hndc).
    apply NoDup_cons in Hndq as [Hu_rest Hnd_rest].
    apply NoDup_cons in Hndc as [Hc_cs Hnd_cs].
    assert (Huc : u ≠ c).
    { intros ->. apply (Hdisj c); by apply elem_of_cons; left. }
    assert (Hu_cs : u ∉ cs).
    { intros Hin. apply (Hdisj u); apply elem_of_cons; [by left|by right]. }
    assert (Hc_rest : c ∉ rest).
    { intros Hin. apply (Hdisj c); apply elem_of_cons; [by right|by left]. }
    destruct (Hcs c) as (sc & Hc & Hgc & Hpc); [by apply elem_of_cons; left|].
    destruct (Hq u) as [su Hu]; [by apply elem_of_cons; left|].
    subst g.
    destruct (startChat_pairs_head b c sc u rest su)
      as (b1 & out1 & Hstart & Hown1 & Hopp1 & Hu1 & Hc1 & Hframe1); auto.
    { destruct Hg as [->| ->]; discriminate. }
    destruct (IH b1 rest) as (b' & out' & Hrun & Hopp' & Hown' & Hpairs & Hframe');
      auto.
    + apply NoDup_app. split; [done|]. split; [|done].
      intros x Hx Hx'. apply (Hdisj x); apply elem_of_cons; by right.
    + intros x Hx. rewrite Hframe1; [apply Hq; by apply elem_of_cons; right| |];
        congruence.
    + intros x Hx. rewrite Hframe1;
        [apply Hcs; by apply elem_of_cons; right| |]; congruence.
    + cbn [List.length] in Hlen. lia.
    + exists b', ((out1 ++ [AnswerCallback "q"; DeleteMessage c 1]) ++ out').
      cbn [map run]. rewrite (handleUpdate_start_chat _ _ _ Hc), Hstart.
      cbn [mbind option_bind]. rewrite Hrun. cbn [mbind option_bind].
      split; [done|]. cbn [List.length drop]. split; [done|]. split; [done|].
      split.
      * intros [|i] x y; cbn [lookup list_lookup].
        -- intros [= <-] [= <-].
           assert (Hu_take : u ∉ take (List.length cs) rest).
           { intros Hin. apply Hu_rest. eapply elem_of_take_list; eauto. }
           assert (Hc_take : c ∉ take (List.length cs) rest).
           { intros Hin. apply Hc_rest. eapply elem_of_take_list; eauto. }
           eexists _, _. rewrite (Hframe' u), (Hframe' c) by done.
           rewrite Hu1, Hc1. done.
        -- apply Hpairs.
      * intros v Hv Hvc. cbn [take] in Hv.
        apply not_elem_of_cons in Hv as [Hvu Hv].
        apply not_elem_of_cons in Hvc as [Hvc Hvcs].
        rewrite Hframe' by done. by apply Hframe1.
Qed.

Lemma fifo_matching_witness :
  (Female = Male ∨ Female = Female) ∧
  oppositeQueueOf Female (afterTrace traceThreeWaiting) = [1; 2; 3] ∧
  queueOf Female (afterTrace traceThreeWaiting) = [] ∧
  NoDup ([1; 2; 3] ++ [4]) ∧
  (∀ u, u ∈ [1; 2; 3] → is_Some (users (afterTrace traceThreeWaiting) !! u)) ∧
  (∀ c, c ∈ [4] →
     ∃ sc, users (afterTrace traceThreeWaiting) !! c = Some sc ∧
           Gender sc = Female ∧ Partner sc = 0) ∧
  (List.length [4] ≤ List.length [1; 2; 3])%nat ∧
  ∃ b' out,
    run [pick "start_chat" 4] (afterTrace traceThreeWaiting) = Some (b', out) ∧
    oppositeQueueOf Female b' = [2; 3] ∧
    queueOf Female b' = [] ∧
    (∃ su sc,
       users b' !! 1 = Some su ∧ Partner su = 4 ∧ Waiting su = false ∧
       users b' !! 4 = Some sc ∧ Partner sc = 1 ∧ Waiting sc = false) ∧
    users b' !! 2 = users (afterTrace traceThreeWaiting) !! 2 ∧
    users b' !! 3 = users (afterTrace traceThreeWaiting) !! 3.
Proof.
  assert (H1 : Female = Male ∨ Female = Female) by (by right).
  assert (H2 : oppositeQueueOf Female (afterTrace traceThreeWaiting) = [1; 2; 3])
    by (vm_compute; reflexivity).
  assert (H3 : queueOf Female (afterTrace traceThreeWaiting) = [])
    by (vm_compute; reflexivity).
  assert (H4 : NoDup ([1; 2; 3] ++ [4])).
  { apply (bool_decide_unpack _). vm_compute. reflexivity. }
  assert (H5 : ∀ u, u ∈ [1; 2; 3] →
            is_Some (users (afterTrace traceThreeWaiting) !! u)).
  { intros u Hu. repeat (apply elem_of_cons in Hu as [->|Hu]);
      [| | |by apply elem_of_nil in Hu]; vm_compute; eauto. }
  assert (H6 : ∀ c, c ∈ [4] →
     ∃ sc, users (afterTrace traceThreeWaiting) !! c = Some sc ∧
           Gender sc = Female ∧ Partner sc = 0).
  { intros c Hc. apply list_elem_of_singleton in Hc as ->.
    exists {| Gender := Female; Partner := 0; Waiting := false |}.
    split; [vm_compute; reflexivity|done]. }
  assert (H7 : (List.length [4] ≤ List.length [1; 2; 3])%nat) by (cbn; lia).
  do 7 (split; [assumption|]).
  destruct (fifo_matching Female [4] _ [1; 2; 3] H1 H2 H3 H4 H5 H6 H7)
    as (b' & out & Hrun & Hopp & Hown & Hpairs & Hframe).
  exists b', out. split; [exact Hrun|]. split; [exact Hopp|].
  split; [exact Hown|]. split; [exact (Hpairs 0%nat 1 4 eq_refl eq_refl)|].
  split; apply Hframe; cbn [take List.length];
    rewrite ?list_elem_of_singleton; lia.
Defined.

(** C6: for a known caller in a reachable state, [startChat] refuses with
    the "choose a gender first" notice exactly when the category is unset,
    and with the "already in a chat" notice exactly when the caller has a
    partner; both refusals leave the state as it was.  Otherwise the caller is
    marked as waiting and appended to the queue of its category, is told that
    the search is on, and [matchUsers] runs on that state. *)
Theorem startChat_outcomes b userID state :
  reachable b → users b !! userID = Some state →
  (Gender state = ""%string ↔
     startChat userID b = Some (b, [sendMessage userID txtChooseGenderFirst])) ∧
  (Partner state ≠ 0 ↔
     startChat userID b = Some (b, [sendMessage userID txtAlreadyInChat])) ∧
  (Gender state ≠ ""%string → Partner state = 0 →
     (Gender state = Male ∨ Gender state = Female) ∧
     ∃ b1 b' out,
       users b1 = <[userID := {| Gender := Gender state; Partner := 0;
                                 Waiting := true |}]> (users b) ∧
       queueOf (Gender state) b1 = queueOf (Gender state) b ++ [userID] ∧
       oppositeQueueOf (Gender state) b1 = oppositeQueueOf (Gender state) b ∧
       matchUsers b1 = Some (b', out) ∧
       startChat userID b = Some (b', sendMessage userID txtSearching :: out)).
Proof.
  intros Hb Hst. pose proof (reachable_wellFormed _ Hb) as Hwf.
  destruct txtSearching_not_refusal as (T1 & T2 & T3).
  rewrite (startChat_unfold _ _ _ Hst).
  split; [|split].
  - split; [intros Hg; by rewrite decide_True|].
    case_decide as Hg; [done|]. case_decide as Hp.
    + intros E. exfalso. apply T3. unfold sendMessage in E. congruence.
    + intros (out' & _ & E)%after_inv. exfalso. apply T1.
      unfold sendMessage in E. cbn [app] in E. congruence.
  - split.
    + intros Hp.
      rewrite decide_False by (eapply wf_partner_gender; eauto).
      by rewrite decide_True.
    + case_decide as Hg.
      * intros E. exfalso. apply T3. unfold sendMessage in E. congruence.
      * case_decide as Hp; [done|].
        intros (out' & _ & E)%after_inv. exfalso. apply T2.
        unfold sendMessage in E. cbn [app] in E. congruence.
  - intros Hg Hp. split.
    { destruct (wf_gender _ Hwf _ _ Hst) as [?|?]; done. }
    rewrite decide_False by done.
    rewrite decide_False by (intros Hn; by apply Hn).
    destruct (matchUsers_total (enqueued userID state b)) as [[b' out] Hm];
      [by apply wellFormed_enqueued|].
    destruct (enqueued_spec userID state b) as (E1 & E2 & E3).
    exists (enqueued userID state b), b', out.
    split; [|split; [exact E2|split; [exact E3|split; [exact Hm|]]]].
    + rewrite E1. unfold withWaiting. by rewrite Hp.
    + rewrite Hm. reflexivity.
Qed.

Lemma startChat_outcomes_witness :
  (reachable (afterTrace traceDeclared) ∧
   users (afterTrace traceDeclared) !! 7
     = Some {| Gender := Male; Partner := 0; Waiting := false |} ∧
   ∃ b1 b' out,
     queueOf Male b1 = queueOf Male (afterTrace traceDeclared) ++ [7] ∧
     matchUsers b1 = Some (b', out) ∧
     startChat 7 (afterTrace traceDeclared)
       = Some (b', sendMessage 7 txtSearching :: out)) ∧
  (reachable (afterTrace traceNewcomer) ∧
   users (afterTrace traceNewcomer) !! 5 = Some zeroState ∧
   startChat 5 (afterTrace traceNewcomer)
     = Some (afterTrace traceNewcomer, [sendMessage 5 txtChooseGenderFirst])) ∧
  (reachable (afterTrace tracePaired) ∧
   users (afterTrace tracePaired) !! 7
     = Some {| Gender := Male; Partner := 8; Waiting := false |} ∧
   startChat 7 (afterTrace tracePaired)
     = Some (afterTrace tracePaired, [sendMessage 7 txtAlreadyInChat])).
Proof.
  assert (H7 : users (afterTrace traceDeclared) !! 7
    = Some {| Gender := Male; Partner := 0; Waiting := false |})
    by (vm_compute; reflexivity).
  assert (H5 : users (afterTrace traceNewcomer) !! 5 = Some zeroState)
    by (vm_compute; reflexivity).
  assert (H7' : users (afterTrace tracePaired) !! 7
    = Some {| Gender := Male; Partner := 8; Waiting := false |})
    by (vm_compute; reflexivity).
  destruct (startChat_outcomes _ 7 _ (afterTrace_reachable _) H7)
    as (_ & _ & Hok).
  destruct (startChat_outcomes _ 5 _ (afterTrace_reachable _) H5)
    as (Hunset & _ & _).
  destruct (startChat_outcomes _ 7 _ (afterTrace_reachable _) H7')
    as (_ & Hpaired & _).
  split; [|split].
  - split; [apply afterTrace_reachable|]. split; [exact H7|].
    destruct Hok as (_ & b1 & b' & out & _ & Hq & _ & Hm & Hs);
      [discriminate|reflexivity|].
    exists b1, b', out. auto.
  - split; [apply afterTrace_reachable|]. split; [exact H5|].
    exact (proj1 Hunset eq_refl).
  - split; [apply afterTrace_reachable|]. split; [exact H7'|].
    apply (proj1 Hpaired). discriminate.
Defined.

(** C7 as stated does not hold of the code: the claim has every
    user-facing failure of every entry point leave the state unchanged, but
    [nextPartner] called by a user who has a category and no partner sends
    the not-in-chat notice of its [stopChat] step and then still runs
    [startChat].  User 7, waiting alone in the male queue, sends /next: the
    notice is sent, and the male queue goes from [7] to [7; 7]. *)
Lemma nextPartner_failure_changes_state :
  ¬ (∀ b userID state b' out,
       reachable b → users b !! userID = Some state →
       nextPartner userID b = Some (b', out) →
       sendMessage userID txtNotInChatStop ∈ out →
       b' = b).
Proof.
  intros Hclaim.
  set (b := afterTrace traceOneWaiting).
  assert (Hst : users b !! 7
    = Some {| Gender := Male; Partner := 0; Waiting := true |})
    by (vm_compute; reflexivity).
  assert (Hq : maleQueue b = [7]) by (vm_compute; reflexivity).
  assert (Hres : (λ r, (maleQueue r.1, r.2)) <$> nextPartner 7 b
    = Some ([7; 7], [sendMessage 7 txtNotInChatStop;
                     sendMessage 7 txtSearching]))
    by (vm_compute; reflexivity).
  destruct (nextPartner 7 b) as [[b' out]|] eqn:Hnext; [|discriminate].
  injection Hres as Hq' ->. cbn [fst] in Hq'.
  assert (E : b' = b).
  { apply (Hclaim b 7 _ b' _ (afterTrace_reachable _) Hst Hnext).
    by apply elem_of_cons; left. }
  rewrite E, Hq in Hq'. discriminate Hq'.
Qed.

(** C7, amended: [stopChat] called by a user without a partner sends the
    caller the not-in-chat notice and leaves the whole state as it was; so
    do the two refusals of [startChat], the refusal of [forwardMessage], and
    [nextPartner] when it is refused because no category was declared.
    [nextPartner] called by a user who has a category and no partner is the
    exception: it sends the not-in-chat notice, then the "searching" notice,
    and ends in the state [matchUsers] leaves after the caller was enqueued,
    which is never the state it started in. *)
Theorem failures_leave_state_unchanged b userID state text :
  reachable b → users b !! userID = Some state →
  (Partner state = 0 →
     stopChat userID b = Some (b, [sendMessage userID txtNotInChatStop])) ∧
  (Gender state = ""%string →
     startChat userID b = Some (b, [sendMessage userID txtChooseGenderFirst])) ∧
  (Partner state ≠ 0 →
     startChat userID b = Some (b, [sendMessage userID txtAlreadyInChat])) ∧
  (Partner state = 0 →
     forwardMessage userID text b
       = Some (b, [sendMessage userID txtNotInChatRelay])) ∧
  (Gender state = ""%string →
     nextPartner userID b
       = Some (b, [sendMessage userID txtNotInChatStop;
                   sendMessage userID txtChooseGenderFirst])) ∧
  (Gender state ≠ ""%string → Partner state = 0 →
     ∃ b' out,
       matchUsers (enqueued userID state b) = Some (b', out) ∧
       nextPartner userID b
         = Some (b', sendMessage userID txtNotInChatStop
                       :: sendMessage userID txtSearching :: out) ∧
       List.length (maleQueue b' ++ femaleQueue b')
         ≠ List.length (maleQueue b ++ femaleQueue b) ∧
       b' ≠ b).
Proof.
  intros Hb Hst. pose proof (reachable_wellFormed _ Hb) as Hwf.
  assert (Hstop : Partner state = 0 →
     stopChat userID b = Some (b, [sendMessage userID txtNotInChatStop])).
  { intros Hp. rewrite (stopChat_unfold _ _ _ Hst). by rewrite decide_True. }
  assert (Hstart : Gender state = ""%string →
     startChat userID b = Some (b, [sendMessage userID txtChooseGenderFirst])).
  { intros Hg. rewrite (startChat_unfold _ _ _ Hst). by rewrite decide_True. }
  split; [exact Hstop|]. split; [exact Hstart|]. split; [|split; [|split]].
  - intros Hp. rewrite (startChat_unfold _ _ _ Hst).
    rewrite decide_False by (eapply wf_partner_gender; eauto).
    by rewrite decide_True.
  - intros Hp. unfold forwardMessage. rewrite Hst. cbn [mbind option_bind].
    rewrite decide_False; [done|]. by intros [].
  - intros Hg. unfold nextPartner.
    assert (Hp : Partner state = 0).
    { destruct (decide (Partner state = 0)) as [|Hn]; [done|].
      by destruct (wf_partner_gender _ Hwf _ _ Hst Hn). }
    rewrite (Hstop Hp). cbn [mbind option_bind].
    rewrite (Hstart Hg). reflexivity.
  - intros Hg Hp.
    destruct (startChat_changes_queues _ _ _ Hwf Hst Hg Hp)
      as (b' & out & Hmatch & Hsearch & Hlen).
    exists b', out. split; [exact Hmatch|]. split; [|split; [exact Hlen|]].
    + unfold nextPartner. rewrite (Hstop Hp). cbn [mbind option_bind].
      rewrite Hsearch. reflexivity.
    + intros E. apply Hlen. by rewrite E.
Qed.

Lemma failures_leave_state_unchanged_witness :
  (reachable (afterTrace traceOneWaiting) ∧
   users (afterTrace traceOneWaiting) !! 7
     = Some {| Gender := Male; Partner := 0; Waiting := true |} ∧
   stopChat 7 (afterTrace traceOneWaiting)
     = Some (afterTrace traceOneWaiting, [sendMessage 7 txtNotInChatStop]) ∧
   forwardMessage 7 "hi" (afterTrace traceOneWaiting)
     = Some (afterTrace traceOneWaiting, [sendMessage 7 txtNotInChatRelay]) ∧
   ∃ b' out,
     nextPartner 7 (afterTrace traceOneWaiting)
       = Some (b', sendMessage 7 txtNotInChatStop
                     :: sendMessage 7 txtSearching :: out) ∧
     b' ≠ afterTrace traceOneWaiting) ∧
  (reachable (afterTrace traceNewcomer) ∧
   users (afterTrace traceNewcomer) !! 5 = Some zeroState ∧
   startChat 5 (afterTrace traceNewcomer)
     = Some (afterTrace traceNewcomer, [sendMessage 5 txtChooseGenderFirst]) ∧
   nextPartner 5 (afterTrace traceNewcomer)
     = Some (afterTrace traceNewcomer,
             [sendMessage 5 txtNotInChatStop;
              sendMessage 5 txtChooseGenderFirst])) ∧
  (reachable (afterTrace tracePaired) ∧
   users (afterTrace tracePaired) !! 7
     = Some {| Gender := Male; Partner := 8; Waiting := false |} ∧
   startChat 7 (afterTrace tracePaired)
     = Some (afterTrace tracePaired, [sendMessage 7 txtAlreadyInChat])).
Proof.
  assert (H7 : users (afterTrace traceOneWaiting) !! 7
    = Some {| Gender := Male; Partner := 0; Waiting := true |})
    by (vm_compute; reflexivity).
  assert (H5 : users (afterTrace traceNewcomer) !! 5 = Some zeroState)
    by (vm_compute; reflexivity).
  assert (H7' : users (afterTrace tracePaired) !! 7
    = Some {| Gender := Male; Partner := 8; Waiting := false |})
    by (vm_compute; reflexivity).
  destruct (failures_leave_state_unchanged _ 7 _ "hi"
              (afterTrace_reachable traceOneWaiting) H7)
    as (A1 & _ & _ & A4 & _ & A6).
  destruct (failures_leave_state_unchanged _ 5 _ "hi"
              (afterTrace_reachable traceNewcomer) H5)
    as (_ & B2 & _ & _ & B5 & _).
  destruct (failures_leave_state_unchanged _ 7 _ "hi"
              (afterTrace_reachable tracePaired) H7')
    as (_ & _ & C3 & _ & _ & _).
  split; [|split].
  - split; [apply afterTrace_reachable|]. split; [exact H7|].
    split; [exact (A1 eq_refl)|]. split; [exact (A4 eq_refl)|].
    destruct A6 as (b' & out & _ & Hn & _ & Hne); [discriminate|reflexivity|].
    exists b', out. auto.
  - split; [apply afterTrace_reachable|]. split; [exact H5|].
    split; [exact (B2 eq_refl)|exact (B5 eq_refl)].
  - split; [apply afterTrace_reachable|]. split; [exact H7'|].
    apply C3. discriminate.
Defined.

(** C8: relaying a text changes nothing in the state.  A paired sender has
    the text sent, unchanged, to the partner and nothing else is sent; an
    unpaired sender gets the not-in-chat notice and nothing else is sent.
    Every text other than the three commands is dispatched to
    [forwardMessage]. *)
Theorem forwardMessage_relays b userID state text :
  users b !! userID = Some state →
  (Partner state ≠ 0 →
     forwardMessage userID text b
       = Some (b, [sendMessage (Partner state) text])) ∧
  (Partner state = 0 →
     forwardMessage userID text b
       = Some (b, [sendMessage userID txtNotInChatRelay])) ∧
  (text ≠ "/start"%string → text ≠ "/stop"%string → text ≠ "/next"%string →
     handleUpdate (Message userID text) b = forwardMessage userID text b).
Proof.
  intros Hst. unfold forwardMessage. rewrite Hst. cbn [mbind option_bind].
  split; [|split].
  - intros Hp. by rewrite decide_True.
  - intros Hp. rewrite decide_False; [done|]. by intros [].
  - intros H1 H2 H3. cbn [handleUpdate].
    rewrite (getOrCreate_known _ _ _ Hst).
    rewrite !decide_False by done.
    unfold forwardMessage. by rewrite Hst.
Qed.

Lemma forwardMessage_relays_witness :
  (users (afterTrace tracePaired) !! 8
     = Some {| Gender := Female; Partner := 7; Waiting := false |} ∧
   forwardMessage 8 "hello" (afterTrace tracePaired)
     = Some (afterTrace tracePaired, [sendMessage 7 "hello"]) ∧
   handleUpdate (Message 8 "hello") (afterTrace tracePaired)
     = forwardMessage 8 "hello" (afterTrace tracePaired)) ∧
  (users (afterTrace traceNewcomer) !! 5 = Some zeroState ∧
   forwardMessage 5 "hello" (afterTrace traceNewcomer)
     = Some (afterTrace traceNewcomer, [sendMessage 5 txtNotInChatRelay])).
Proof.
  assert (H8 : users (afterTrace tracePaired) !! 8
    = Some {| Gender := Female; Partner := 7; Waiting := false |})
    by (vm_compute; reflexivity).
  assert (H5 : users (afterTrace traceNewcomer) !! 5 = Some zeroState)
    by (vm_compute; reflexivity).
  destruct (forwardMessage_relays _ 8 _ "hello" H8) as (A1 & _ & A3).
  destruct (forwardMessage_relays _ 5 _ "hello" H5) as (_ & B2 & _).
  split.
  - split; [exact H8|]. split; [apply A1; discriminate|].
    apply A3; discriminate.
  - split; [exact H5|]. exact (B2 eq_refl).
Defined.

(** C9 as stated does not hold of the code: the claim has the end-session
    error suppressed when the caller of [nextPartner] is not in a session,
    but [nextPartner] calls [stopChat] as it is, and [stopChat] sends its
    not-in-chat notice.  User 7, who has declared a category and is in no
    session, sends /next and receives that notice before the "searching"
    one. *)
Lemma nextPartner_stop_error_not_suppressed :
  ¬ (∀ b userID state b' out,
       reachable b → users b !! userID = Some state → Partner state = 0 →
       nextPartner userID b = Some (b', out) →
       sendMessage userID txtNotInChatStop ∉ out).
Proof.
  intros Hclaim.
  set (b := afterTrace traceDeclared).
  assert (Hst : users b !! 7
    = Some {| Gender := Male; Partner := 0; Waiting := false |})
    by (vm_compute; reflexivity).
  assert (Hout : snd <$> nextPartner 7 b
    = Some [sendMessage 7 txtNotInChatStop; sendMessage 7 txtSearching])
    by (vm_compute; reflexivity).
  destruct (nextPartner 7 b) as [[b' out]|] eqn:Hnext; [|discriminate].
  injection Hout as ->.
  apply (Hclaim b 7 _ b' _ (afterTrace_reachable _) Hst eq_refl Hnext).
  by apply elem_of_cons; left.
Qed.

(** C9, amended: [nextPartner] is [stopChat] followed by [startChat].  When
    the caller has no partner, [stopChat] changes nothing and sends its
    not-in-chat notice, after which [startChat] runs as usual.  When X is in
    a session with Y, neither of them stands in a queue and nobody of the
    opposite category waits, Y is told that the partner left and ends with
    no partner and not waiting, and X ends with no partner, waiting, at the
    tail of the queue of X's category; nobody else is touched. *)
Theorem nextPartner_stop_then_start b X sx :
  users b !! X = Some sx →
  nextPartner X b
    = ('(b1, out1) ← stopChat X b;
       '(b2, out2) ← startChat X b1; Some (b2, out1 ++ out2)) ∧
  (Partner sx = 0 →
     nextPartner X b
       = after [sendMessage X txtNotInChatStop] (startChat X b)) ∧
  (∀ Y sy,
     Partner sx = Y → Y ≠ 0 → Y ≠ X → users b !! Y = Some sy →
     Waiting sy = false → Gender sx ≠ ""%string →
     X ∉ (maleQueue b ++ femaleQueue b) →
     Y ∉ (maleQueue b ++ femaleQueue b) →
     oppositeQueueOf (Gender sx) b = [] →
     ∃ b',
       nextPartner X b
         = Some (b', [sendMessage X txtChatEnded;
                      sendMessage Y txtPartnerEnded;
                      sendMessage X txtSearching]) ∧
       users b' !! Y
         = Some {| Gender := Gender sy; Partner := 0; Waiting := false |} ∧
       users b' !! X
         = Some {| Gender := Gender sx; Partner := 0; Waiting := true |} ∧
       queueOf (Gender sx) b' = queueOf (Gender sx) b ++ [X] ∧
       oppositeQueueOf (Gender sx) b' = [] ∧
       (∀ v, v ≠ X → v ≠ Y → users b' !! v = users b !! v)).
Proof.
  intros Hx. split; [reflexivity|]. split.
  - intros Hp. unfold nextPartner.
    rewrite (stopChat_unfold _ _ _ Hx), decide_True by done.
    cbn [mbind option_bind]. unfold after.
    destruct (startChat X b) as [[b2 out2]|]; reflexivity.
  - intros Y sy HY Hy0 Hyx Hy Hwy Hg HXq HYq Hopp. subst Y.
    set (Y := Partner sx) in *.
    set (us1 := <[X := withPartner 0 sx]> (users b)).
    set (us2 := <[Y := withPartner 0 sy]> us1).
    assert (H1 : us1 !! Y = Some sy)
      by (unfold us1; by rewrite lookup_insert_ne).
    assert (H2 : us2 !! X = Some (withPartner 0 sx)).
    { unfold us2, us1. rewrite lookup_insert_ne by done.
      apply lookup_insert_eq. }
    unfold nextPartner.
    rewrite (stopChat_unfold _ _ _ Hx), decide_False by done.
    fold Y. fold us1. rewrite (store_Some _ _ _ _ H1).
    cbn [mbind option_bind]. fold us2.
    rewrite (removeFromQueue_absent X) by done.
    rewrite (removeFromQueue_absent Y) by done.
    rewrite (startChat_unfold X
               {| users := us2; maleQueue := maleQueue b;
                  femaleQueue := femaleQueue b |} _ H2).
    rewrite decide_False by done.
    rewrite decide_False by (intros Hn; by apply Hn).
    unfold matchUsers, enqueued, queueOf, oppositeQueueOf in *. cbn zeta.
    cbn [users maleQueue femaleQueue Gender withPartner].
    destruct (decide (Gender sx = Male)) as [Hm|Hm];
      cbn [users maleQueue femaleQueue]; rewrite Hopp.
    + rewrite matchLoop_nil_r, after_Some. cbn [mbind option_bind app].
      eexists. split; [reflexivity|]. cbn [users maleQueue femaleQueue].
      split; [|split; [|split; [done|split; [done|]]]].
      * rewrite lookup_insert_ne by done. unfold us2.
        rewrite lookup_insert_eq. unfold withPartner. by rewrite Hwy.
      * by rewrite lookup_insert_eq.
      * intros v Hvx Hvy. unfold us2, us1.
        by rewrite !lookup_insert_ne by done.
    + rewrite matchLoop_nil_l, after_Some. cbn [mbind option_bind app].
      eexists. split; [reflexivity|]. cbn [users maleQueue femaleQueue].
      split; [|split; [|split; [done|split; [done|]]]].
      * rewrite lookup_insert_ne by done. unfold us2.
        rewrite lookup_insert_eq. unfold withPartner. by rewrite Hwy.
      * by rewrite lookup_insert_eq.
      * intros v Hvx Hvy. unfold us2, us1.
        by rewrite !lookup_insert_ne by done.
Qed.

Lemma nextPartner_stop_then_start_witness :
  users (afterTrace traceDeclared) !! 7
    = Some {| Gender := Male; Partner := 0; Waiting := false |} ∧
  nextPartner 7 (afterTrace traceDeclared)
    = after [sendMessage 7 txtNotInChatStop]
        (startChat 7 (afterTrace traceDeclared)) ∧
  users (afterTrace tracePaired) !! 7
    = Some {| Gender := Male; Partner := 8; Waiting := false |} ∧
  users (afterTrace tracePaired) !! 8
    = Some {| Gender := Female; Partner := 7; Waiting := false |} ∧
  (7 ∉ maleQueue (afterTrace tracePaired)
         ++ femaleQueue (afterTrace tracePaired)) ∧
  (8 ∉ maleQueue (afterTrace tracePaired)
         ++ femaleQueue (afterTrace tracePaired)) ∧
  oppositeQueueOf Male (afterTrace tracePaired) = [] ∧
  ∃ b',
    nextPartner 7 (afterTrace tracePaired)
      = Some (b', [sendMessage 7 txtChatEnded;
                   sendMessage 8 txtPartnerEnded;
                   sendMessage 7 txtSearching]) ∧
    users b' !! 8
      = Some {| Gender := Female; Partner := 0; Waiting := false |} ∧
    users b' !! 7
      = Some {| Gender := Male; Partner := 0; Waiting := true |} ∧
    queueOf Male b' = queueOf Male (afterTrace tracePaired) ++ [7].
Proof.
  assert (H7 : users (afterTrace tracePaired) !! 7
    = Some {| Gender := Male; Partner := 8; Waiting := false |})
    by (vm_compute; reflexivity).
  assert (H8 : users (afterTrace tracePaired) !! 8
    = Some {| Gender := Female; Partner := 7; Waiting := false |})
    by (vm_compute; reflexivity).
  assert (Hq : maleQueue (afterTrace tracePaired)
                 ++ femaleQueue (afterTrace tracePaired) = [])
    by (vm_compute; reflexivity).
  assert (Ho : oppositeQueueOf Male (afterTrace tracePaired) = [])
    by (vm_compute; reflexivity).
  assert (H0 : users (afterTrace traceDeclared) !! 7
    = Some {| Gender := Male; Partner := 0; Waiting := false |})
    by (vm_compute; reflexivity).
  split; [exact H0|].
  split; [exact (proj1 (proj2 (nextPartner_stop_then_start _ 7 _ H0)) eq_refl)|].
  split; [exact H7|]. split; [exact H8|].
  split; [rewrite Hq; apply not_elem_of_nil|].
  split; [rewrite Hq; apply not_elem_of_nil|].
  split; [exact Ho|].
  destruct (proj2 (proj2 (nextPartner_stop_then_start _ 7 _ H7)) 8
              {| Gender := Female; Partner := 7; Waiting := false |}
              eq_refl) as (b' & Hn & Hy & Hx & Hown & _);
    [discriminate|discriminate|exact H8|reflexivity|discriminate
    |rewrite Hq; apply not_elem_of_nil|rewrite Hq; apply not_elem_of_nil
    |exact Ho|].
  exists b'. auto.
Defined.

(** C10: [setGender] succeeds for every known user, whatever the user's
    state, and writes the caller's [Gender] only: the caller's partner and
    waiting flag, every other user's record and both queues are as before.
    A user who stands in a queue therefore stays in that queue when
    declaring the other category. *)
Theorem setGender_frame b userID state gender :
  users b !! userID = Some state →
  ∃ b' out,
    setGender userID gender b = Some (b', out) ∧
    users b' !! userID
      = Some {| Gender := gender; Partner := Partner state;
                Waiting := Waiting state |} ∧
    (∀ v, v ≠ userID → users b' !! v = users b !! v) ∧
    maleQueue b' = maleQueue b ∧
    femaleQueue b' = femaleQueue b.
Proof.
  intros Hst. unfold setGender. rewrite (store_Some _ _ _ _ Hst).
  cbn [mbind option_bind]. eexists _, _. split; [reflexivity|].
  cbn [users maleQueue femaleQueue]. split; [|split; [|done]].
  - by rewrite lookup_insert_eq.
  - intros v Hv. by rewrite lookup_insert_ne.
Qed.

Lemma setGender_frame_witness :
  users (afterTrace traceOneWaiting) !! 7
    = Some {| Gender := Male; Partner := 0; Waiting := true |} ∧
  ∃ b' out,
    setGender 7 Female (afterTrace traceOneWaiting) = Some (b', out) ∧
    users b' !! 7
      = Some {| Gender := Female; Partner := 0; Waiting := true |} ∧
    maleQueue b' = [7] ∧ femaleQueue b' = [].
Proof.
  assert (H : users (afterTrace traceOneWaiting) !! 7
    = Some {| Gender := Male; Partner := 0; Waiting := true |})
    by (vm_compute; reflexivity).
  split; [exact H|].
  destruct (setGender_frame _ 7 _ Female H)
    as (b' & out & Hrun & Hme & _ & Hm & Hf).
  exists b', out. split; [exact Hrun|]. split; [exact Hme|].
  rewrite Hm, Hf. split; vm_compute; reflexivity.
Defined.

(** * Further properties of the handlers *)

(** ** Removal from the queues *)

Lemma removeFirst_Some userID q r :
  removeFirst userID q = Some r ↔
  ∃ l1 l2, q = l1 ++ userID :: l2 ∧ (userID ∉ l1) ∧ r = l1 ++ l2.
Proof.
  split.
  - revert r. induction q as [|id q IH]; intros r; cbn [removeFirst];
      [discriminate|].
    destruct (decide (id = userID)) as [->|Hne].
    + intros [= <-]. exists [], q. split; [done|]. split; [|done].
      apply not_elem_of_nil.
    + destruct (removeFirst userID q) as [r'|]; [|discriminate].
      intros [= <-]. destruct (IH r' eq_refl) as (l1 & l2 & -> & Hl1 & ->).
      exists (id :: l1), l2. split; [done|]. split; [|done].
      apply not_elem_of_cons. split; [congruence|done].
  - intros (l1 & l2 & -> & Hl1 & ->).
    induction l1 as [|id l1 IH]; cbn [app removeFirst].
    + by rewrite decide_True.
    + apply not_elem_of_cons in Hl1 as [Hne Hl1].
      rewrite decide_False by congruence. by rewrite (IH Hl1).
Qed.

Lemma removeFirst_None userID q : removeFirst userID q = None ↔ userID ∉ q.
Proof.
  split; [|apply removeFirst_absent].
  intros Hnone Hin. apply list_elem_of_split in Hin as (l1 & l2 & ->).
  assert (Hex : ∃ k1 k2, l1 ++ userID :: l2 = k1 ++ userID :: k2 ∧ (userID ∉ k1)).
  { clear Hnone. induction l1 as [|id l1 IH]; cbn [app].
    - exists [], l2. split; [done|apply not_elem_of_nil].
    - destruct (decide (id = userID)) as [->|Hne].
      + exists [], (l1 ++ userID :: l2). split; [done|apply not_elem_of_nil].
      + destruct IH as (k1 & k2 & E & Hk). exists (id :: k1), k2.
        rewrite E. split; [done|].
        apply not_elem_of_cons. split; [congruence|done]. }
  destruct Hex as (k1 & k2 & E & Hk).
  assert (Hs : removeFirst userID (l1 ++ userID :: l2) = Some (k1 ++ k2)).
  { apply removeFirst_Some. eauto. }
  congruence.
Qed.

(** X1: one scan of [removeFromQueue] deletes the first occurrence of the
    user and keeps all other entries in their order; it finds nothing
    exactly when the user is not in the queue. *)
Theorem removeFirst_first_occurrence userID q :
  (∀ r, removeFirst userID q = Some r ↔
        ∃ l1 l2, q = l1 ++ userID :: l2 ∧ (userID ∉ l1) ∧ r = l1 ++ l2) ∧
  (removeFirst userID q = None ↔ userID ∉ q).
Proof.
  split; [intros r; apply removeFirst_Some|apply removeFirst_None].
Qed.

Lemma removeFromQueue_male userID b r :
  removeFirst userID (maleQueue b) = Some r →
  removeFromQueue userID b
    = {| users := users b; maleQueue := r; femaleQueue := femaleQueue b |}.
Proof. intros H. unfold removeFromQueue. by rewrite H. Qed.

Lemma removeFromQueue_female userID b r :
  userID ∉ maleQueue b →
  removeFirst userID (femaleQueue b) = Some r →
  removeFromQueue userID b
    = {| users := users b; maleQueue := maleQueue b; femaleQueue := r |}.
Proof.
  intros Hm H. unfold removeFromQueue.
  by rewrite (removeFirst_absent _ _ Hm), H.
Qed.

(** X2: [removeFromQueue] removes at most one entry.  A user found in the
    male queue loses the first entry there and the female queue is left as
    it is, even when it holds the user too; otherwise the first entry in the
    female queue goes; a user in neither queue changes nothing.  The table
    of users is never touched. *)
Theorem removeFromQueue_one_entry userID b :
  (userID ∈ maleQueue b →
     ∃ l1 l2, maleQueue b = l1 ++ userID :: l2 ∧ (userID ∉ l1) ∧
       removeFromQueue userID b
         = {| users := users b; maleQueue := l1 ++ l2;
              femaleQueue := femaleQueue b |}) ∧
  (userID ∉ maleQueue b → userID ∈ femaleQueue b →
     ∃ l1 l2, femaleQueue b = l1 ++ userID :: l2 ∧ (userID ∉ l1) ∧
       removeFromQueue userID b
         = {| users := users b; maleQueue := maleQueue b;
              femaleQueue := l1 ++ l2 |}) ∧
  (userID ∉ maleQueue b → userID ∉ femaleQueue b →
     removeFromQueue userID b = b).
Proof.
  split; [|split].
  - intros Hin. destruct (removeFirst userID (maleQueue b)) as [r|] eqn:Hr.
    + pose proof Hr as (l1 & l2 & E & Hl1 & ->)%removeFirst_Some.
      exists l1, l2. split; [done|]. split; [done|].
      by apply removeFromQueue_male.
    + by apply removeFirst_None in Hr.
  - intros Hm Hin. destruct (removeFirst userID (femaleQueue b)) as [r|] eqn:Hr.
    + pose proof Hr as (l1 & l2 & E & Hl1 & ->)%removeFirst_Some.
      exists l1, l2. split; [done|]. split; [done|].
      by apply removeFromQueue_female.
    + by apply removeFirst_None in Hr.
  - intros Hm Hf. apply removeFromQueue_absent.
    by apply not_elem_of_app.
Qed.

Lemma removeFromQueue_one_entry_witness :
  7 ∈ maleQueue botInBothQueues ∧
  ∃ l1 l2, maleQueue botInBothQueues = l1 ++ 7 :: l2 ∧ (7 ∉ l1) ∧
    removeFromQueue 7 botInBothQueues
      = {| users := users botInBothQueues; maleQueue := l1 ++ l2;
           femaleQueue := [2; 7] |}.
Proof.
  assert (Hin : 7 ∈ maleQueue botInBothQueues) by (by apply elem_of_cons; left).
  split; [exact Hin|].
  exact (proj1 (removeFromQueue_one_entry 7 botInBothQueues) Hin).
Defined.

Lemma removeFirst_snoc userID q :
  userID ∉ q → removeFirst userID (q ++ [userID]) = Some q.
Proof.
  intros Hq. apply removeFirst_Some. exists q, [].
  by rewrite app_nil_r.
Qed.

(** X3: removal undoes the enqueue of [startChat].  For a user who stood in
    no queue, removing the user from the state that [startChat] hands to
    [matchUsers] gives back both queues as they were; the [Waiting] flag set
    on the way stays set. *)
Theorem removeFromQueue_undoes_enqueue userID state b :
  userID ∉ maleQueue b ++ femaleQueue b →
  removeFromQueue userID (enqueued userID state b)
    = {| users := <[userID := {| Gender := Gender state;
                                 Partner := Partner state;
                                 Waiting := true |}]> (users b);
         maleQueue := maleQueue b; femaleQueue := femaleQueue b |}.
Proof.
  intros Hq. apply not_elem_of_app in Hq as [Hm Hf].
  unfold enqueued. cbn zeta. case_decide.
  - erewrite removeFromQueue_male; [reflexivity|].
    cbn [maleQueue]. by apply removeFirst_snoc.
  - erewrite removeFromQueue_female; [reflexivity|done|].
    cbn [femaleQueue]. by apply removeFirst_snoc.
Qed.

Lemma removeFromQueue_undoes_enqueue_witness :
  (8 ∉ maleQueue (afterTrace traceOneWaiting)
         ++ femaleQueue (afterTrace traceOneWaiting)) ∧
  maleQueue (enqueued 8 {| Gender := Male; Partner := 0; Waiting := false |}
               (afterTrace traceOneWaiting)) = [7; 8] ∧
  maleQueue (removeFromQueue 8
               (enqueued 8 {| Gender := Male; Partner := 0; Waiting := false |}
                  (afterTrace traceOneWaiting))) = [7].
Proof.
  assert (Hq : maleQueue (afterTrace traceOneWaiting)
                 ++ femaleQueue (afterTrace traceOneWaiting) = [7])
    by (vm_compute; reflexivity).
  assert (Hn : 8 ∉ maleQueue (afterTrace traceOneWaiting)
                     ++ femaleQueue (afterTrace traceOneWaiting)).
  { rewrite Hq. rewrite list_elem_of_singleton. lia. }
  split; [exact Hn|]. split; [vm_compute; reflexivity|].
  rewrite (removeFromQueue_undoes_enqueue 8 _ _ Hn).
  vm_compute. reflexivity.
Defined.

(** ** Ending a session *)

Lemma stopChat_paired X b sx sy :
  users b !! X = Some sx → Partner sx ≠ 0 →
  users b !! Partner sx = Some sy →
  ∃ us',
    us' !! X = Some (withPartner 0 sx) ∧
    us' !! Partner sx = Some (withPartner 0 sy) ∧
    (∀ v, v ≠ X → v ≠ Partner sx → us' !! v = users b !! v) ∧
    stopChat X b =
      Some (removeFromQueue (Partner sx)
              (removeFromQueue X
                 {| users := us'; maleQueue := maleQueue b;
                    femaleQueue := femaleQueue b |}),
            [sendMessage X txtChatEnded;
             sendMessage (Partner sx) txtPartnerEnded]).
Proof.
  intros Hx Hp Hy. rewrite (stopChat_unfold _ _ _ Hx).
  rewrite decide_False by done.
  destruct (decide (Partner sx = X)) as [E|Hne].
  - assert (sy = sx) as -> by (rewrite E in Hy; congruence).
    assert (H1 : <[X := withPartner 0 sx]> (users b) !! Partner sx
                 = Some (withPartner 0 sx))
      by (rewrite E; apply lookup_insert_eq).
    rewrite (store_Some _ _ _ _ H1). cbn [mbind option_bind].
    eexists. split; [|split; [|split; [|reflexivity]]].
    + rewrite E. by rewrite lookup_insert_eq.
    + by rewrite lookup_insert_eq.
    + intros v Hvx Hvy. by rewrite !lookup_insert_ne by congruence.
  - assert (H1 : <[X := withPartner 0 sx]> (users b) !! Partner sx = Some sy)
      by (by rewrite lookup_insert_ne by congruence).
    rewrite (store_Some _ _ _ _ H1). cbn [mbind option_bind].
    eexists. split; [|split; [|split; [|reflexivity]]].
    + rewrite lookup_insert_ne by done. by rewrite lookup_insert_eq.
    + by rewrite lookup_insert_eq.
    + intros v Hvx Hvy. by rewrite !lookup_insert_ne by congruence.
Qed.

Lemma removeFromQueue_subset userID b v :
  v ∈ maleQueue (removeFromQueue userID b)
        ++ femaleQueue (removeFromQueue userID b) →
  v ∈ maleQueue b ++ femaleQueue b.
Proof.
  unfold removeFromQueue.
  destruct (removeFirst userID (maleQueue b)) as [r|] eqn:Hm.
  - cbn [maleQueue femaleQueue]. rewrite !elem_of_app.
    intros [?|?]; [left|by right]. by eapply removeFirst_subset.
  - destruct (removeFirst userID (femaleQueue b)) as [r|] eqn:Hf; [|done].
    cbn [maleQueue femaleQueue]. rewrite !elem_of_app.
    intros [?|?]; [by left|right]. by eapply removeFirst_subset.
Qed.

(** X4: [stopChat] called by a user whose partner is a known user clears
    the partner field of both, tells the caller that the chat is over and
    the partner that the other side left, and sends nothing else.  Gender
    and waiting flag of the two, and the records of all other users, are as
    before; no queue gains an entry, and the queues are untouched when
    neither of the two stood in one. *)
Theorem stopChat_ends_session b X sx sy :
  users b !! X = Some sx → Partner sx ≠ 0 →
  users b !! Partner sx = Some sy →
  ∃ b',
    stopChat X b
      = Some (b', [sendMessage X txtChatEnded;
                   sendMessage (Partner sx) txtPartnerEnded]) ∧
    users b' !! X
      = Some {| Gender := Gender sx; Partner := 0; Waiting := Waiting sx |} ∧
    users b' !! Partner sx
      = Some {| Gender := Gender sy; Partner := 0; Waiting := Waiting sy |} ∧
    (∀ v, v ≠ X → v ≠ Partner sx → users b' !! v = users b !! v) ∧
    (∀ v, v ∈ maleQueue b' ++ femaleQueue b' →
          v ∈ maleQueue b ++ femaleQueue b) ∧
    ((X ∉ maleQueue b ++ femaleQueue b) →
     (Partner sx ∉ maleQueue b ++ femaleQueue b) →
     maleQueue b' = maleQueue b ∧ femaleQueue b' = femaleQueue b).
Proof.
  intros Hx Hp Hy.
  destruct (stopChat_paired _ _ _ _ Hx Hp Hy) as (us' & L1 & L2 & L3 & Hrun).
  eexists. split; [exact Hrun|]. rewrite !removeFromQueue_users.
  cbn [users]. split; [exact L1|]. split; [exact L2|]. split; [exact L3|].
  split.
  - intros v Hv. by do 2 apply removeFromQueue_subset in Hv.
  - intros HXq HYq.
    rewrite (removeFromQueue_absent X) by done.
    by rewrite (removeFromQueue_absent (Partner sx)) by done.
Qed.

Lemma stopChat_ends_session_witness :
  users (afterTrace tracePaired) !! 7
    = Some {| Gender := Male; Partner := 8; Waiting := false |} ∧
  users (afterTrace tracePaired) !! 8
    = Some {| Gender := Female; Partner := 7; Waiting := false |} ∧
  ∃ b',
    stopChat 7 (afterTrace tracePaired)
      = Some (b', [sendMessage 7 txtChatEnded; sendMessage 8 txtPartnerEnded]) ∧
    users b' !! 7
      = Some {| Gender := Male; Partner := 0; Waiting := false |} ∧
    users b' !! 8
      = Some {| Gender := Female; Partner := 0; Waiting := false |}.
Proof.
  assert (H7 : users (afterTrace tracePaired) !! 7
    = Some {| Gender := Male; Partner := 8; Waiting := false |})
    by (vm_compute; reflexivity).
  assert (H8 : users (afterTrace tracePaired) !! 8
    = Some {| Gender := Female; Partner := 7; Waiting := false |})
    by (vm_compute; reflexivity).
  split; [exact H7|]. split; [exact H8|].
  destruct (stopChat_ends_session _ 7 _
              {| Gender := Female; Partner := 7; Waiting := false |} H7)
    as (b' & Hrun & L1 & L2 & _); [discriminate|exact H8|].
  exists b'. auto.
Defined.

(** X5: a second [stopChat] right after a first one is always refused: it
    sends the not-in-chat notice and changes nothing, whether the first call
    ended a session or was itself refused. *)
Theorem stopChat_twice b X sx b1 out1 :
  users b !! X = Some sx →
  stopChat X b = Some (b1, out1) →
  stopChat X b1 = Some (b1, [sendMessage X txtNotInChatStop]).
Proof.
  intros Hx. destruct (decide (Partner sx = 0)) as [Hp|Hp].
  - rewrite (stopChat_unfold _ _ _ Hx), decide_True by done.
    intros [= <- <-].
    rewrite (stopChat_unfold _ _ _ Hx). by rewrite decide_True.
  - destruct (users b !! Partner sx) as [sy|] eqn:Hy.
    + destruct (stopChat_paired _ _ _ _ Hx Hp Hy) as (us' & L1 & _ & _ & ->).
      intros [= <- <-].
      erewrite stopChat_unfold
        by (rewrite !removeFromQueue_users; exact L1).
      by rewrite decide_True.
    + rewrite (stopChat_unfold _ _ _ Hx), decide_False by done.
      rewrite store_None; [discriminate|].
      rewrite lookup_insert_ne; [done|]. congruence.
Qed.

Lemma stopChat_twice_witness :
  users (afterTrace tracePaired) !! 7
    = Some {| Gender := Male; Partner := 8; Waiting := false |} ∧
  ∃ b1 out1,
    stopChat 7 (afterTrace tracePaired) = Some (b1, out1) ∧
    stopChat 7 b1 = Some (b1, [sendMessage 7 txtNotInChatStop]).
Proof.
  assert (H7 : users (afterTrace tracePaired) !! 7
    = Some {| Gender := Male; Partner := 8; Waiting := false |})
    by (vm_compute; reflexivity).
  split; [exact H7|].
  destruct (stopChat 7 (afterTrace tracePaired)) as [[b1 out1]|] eqn:Hs;
    [|vm_compute in Hs; discriminate Hs].
  exists b1, out1. split; [reflexivity|].
  exact (stopChat_twice _ 7 _ b1 out1 H7 Hs).
Defined.

Lemma stopChat_preserves_symmetry b X b' out :
  partnerSymmetric b → stopChat X b = Some (b', out) → partnerSymmetric b'.
Proof.
  intros Hsym. destruct (users b !! X) as [sx|] eqn:Hx;
    [|unfold stopChat; by rewrite Hx].
  destruct (decide (Partner sx = 0)) as [Hp|Hp].
  { rewrite (stopChat_unfold _ _ _ Hx), decide_True by done.
    by intros [= <- <-]. }
  destruct (Hsym X _ _ Hx eq_refl Hp) as (sy & Hy & Hyx).
  destruct (stopChat_paired _ _ _ _ Hx Hp Hy) as (us' & L1 & L2 & L3 & ->).
  intros [= <- <-]. intros A B stA. rewrite !removeFromQueue_users.
  cbn [users]. intros HA HB HB0.
  assert (HAx : A ≠ X).
  { intros ->. rewrite L1 in HA. injection HA as <-. by cbn in HB. }
  assert (HAy : A ≠ Partner sx).
  { intros ->. rewrite L2 in HA. injection HA as <-. by cbn in HB. }
  rewrite L3 in HA by done.
  destruct (Hsym A B stA HA HB HB0) as (stB & HstB & HBA).
  assert (HBx : B ≠ X).
  { intros ->. rewrite Hx in HstB. injection HstB as <-. congruence. }
  assert (HBy : B ≠ Partner sx).
  { intros ->. rewrite Hy in HstB. injection HstB as <-. congruence. }
  exists stB. by rewrite L3.
Qed.

(** ** The session invariants along disciplined runs *)

Lemma consistent_NewBot : consistent NewBot.
Proof.
  split; unfold partnerSymmetric, queuesUnique; simpl.
  - intros A B stA H. by rewrite lookup_empty in H.
  - apply NoDup_nil_2.
  - intros u Hu. by apply elem_of_nil in Hu.
  - intros u st H. by rewrite lookup_empty in H.
  - intros u st H. by rewrite lookup_empty in H.
  - apply lookup_empty.
Qed.

Lemma consistent_known_nonzero b u st :
  consistent b → users b !! u = Some st → u ≠ 0.
Proof. intros Hc Hu ->. rewrite (cs_no_zero _ Hc) in Hu. discriminate. Qed.

(** Writing at key [k] a record with the partner and waiting flag the key
    had (or those of the zero value, for a new key) keeps the invariants. *)
Lemma consistent_insert us mq fq k st' :
  consistent {| users := us; maleQueue := mq; femaleQueue := fq |} →
  k ≠ 0 →
  match us !! k with
  | Some st => Partner st' = Partner st ∧ Waiting st' = Waiting st
  | None => Partner st' = 0 ∧ Waiting st' = false
  end →
  consistent {| users := <[k := st']> us; maleQueue := mq; femaleQueue := fq |}.
Proof.
  intros Hc Hk Hsame. pose proof Hc as [Hsym Huniq Hq Hw Hself Hzero].
  unfold partnerSymmetric, queuesUnique in *.
  cbn [users maleQueue femaleQueue] in *.
  split; unfold partnerSymmetric, queuesUnique;
    cbn [users maleQueue femaleQueue].
  - intros A B stA HA HB HB0. destruct (decide (A = k)) as [->|HAk].
    + rewrite lookup_insert_eq in HA. injection HA as <-.
      destruct (us !! k) as [st|] eqn:Hst; [|destruct Hsame; congruence].
      destruct Hsame as [HP _].
      destruct (Hsym k B st Hst) as (stB & HstB & HBk); [congruence|done|].
      assert (B ≠ k).
      { intros ->. apply (Hself k st Hst). congruence. }
      exists stB. by rewrite lookup_insert_ne.
    + rewrite lookup_insert_ne in HA by done.
      destruct (Hsym A B stA HA HB HB0) as (stB & HstB & HBA).
      destruct (decide (B = k)) as [->|HBk].
      * rewrite HstB in Hsame. destruct Hsame as [HP _].
        exists st'. rewrite lookup_insert_eq. split; [done|congruence].
      * exists stB. by rewrite lookup_insert_ne.
  - exact Huniq.
  - intros u Hu. destruct (Hq u Hu) as (st & Hst & HP & HW).
    destruct (decide (u = k)) as [->|Huk].
    + rewrite Hst in Hsame. destruct Hsame as [HP' HW'].
      exists st'. rewrite lookup_insert_eq. split; [done|]. split; congruence.
    + exists st. by rewrite lookup_insert_ne.
  - intros u st. destruct (decide (u = k)) as [->|Huk].
    + rewrite lookup_insert_eq. intros [= <-] HW.
      destruct (us !! k) as [st|] eqn:Hst; [|destruct Hsame; congruence].
      destruct Hsame as [_ HW']. apply (Hw k st Hst). congruence.
    + rewrite lookup_insert_ne by done. apply Hw.
  - intros u st. destruct (decide (u = k)) as [->|Huk].
    + rewrite lookup_insert_eq. intros [= <-].
      destruct (us !! k) as [st|] eqn:Hst.
      * destruct Hsame as [HP _]. rewrite HP. by apply Hself.
      * destruct Hsame as [HP _]. rewrite HP. congruence.
    + rewrite lookup_insert_ne by done. apply Hself.
  - by rewrite lookup_insert_ne.
Qed.

Lemma consistent_eta b :
  consistent b →
  consistent {| users := users b; maleQueue := maleQueue b;
                femaleQueue := femaleQueue b |}.
Proof. by destruct b. Qed.

Lemma consistent_getOrCreate userID b :
  userID ≠ 0 → consistent b → consistent (getOrCreate userID b).
Proof.
  intros Hk Hc. unfold getOrCreate.
  destruct (users b !! userID) as [st|] eqn:Hst; [done|].
  apply consistent_insert; [by apply consistent_eta|done|].
  by rewrite Hst.
Qed.

Lemma consistent_setGender userID gender b b' out :
  consistent b → setGender userID gender b = Some (b', out) → consistent b'.
Proof.
  intros Hc. unfold setGender, store.
  destruct (users b !! userID) as [st|] eqn:Hst; [|discriminate].
  cbn [mbind option_bind]. intros [= <- <-].
  apply consistent_insert; [by apply consistent_eta| |by rewrite Hst].
  by eapply consistent_known_nonzero.
Qed.

(** Queue membership of the state [startChat] hands to [matchUsers]. *)
Lemma enqueued_queues userID state b :
  maleQueue (enqueued userID state b)
    ++ femaleQueue (enqueued userID state b) ≡ₚ
  userID :: maleQueue b ++ femaleQueue b.
Proof.
  unfold enqueued. cbn zeta. case_decide; cbn [maleQueue femaleQueue].
  - rewrite <- app_assoc. cbn [app].
    rewrite (Permutation_middle (maleQueue b)). done.
  - rewrite app_assoc. by rewrite Permutation_app_comm.
Qed.

Lemma consistent_enqueued userID state b :
  consistent b → users b !! userID = Some state → Partner state = 0 →
  (userID ∉ maleQueue b ++ femaleQueue b) →
  consistent (enqueued userID state b).
Proof.
  intros Hc Hst HP Hnq. pose proof Hc as [Hsym Huniq Hq Hw Hself Hzero].
  pose proof (enqueued_queues userID state b) as Hperm.
  destruct (enqueued_spec userID state b) as (Eus & _ & _).
  assert (Hk : userID ≠ 0) by (by eapply consistent_known_nonzero).
  split.
  - intros A B stA. rewrite Eus. intros HA HB HB0.
    destruct (decide (A = userID)) as [->|HAk].
    + rewrite lookup_insert_eq in HA. injection HA as <-.
      cbn in HB. congruence.
    + rewrite lookup_insert_ne in HA by done.
      destruct (Hsym A B stA HA HB HB0) as (stB & HstB & HBA).
      destruct (decide (B = userID)) as [->|HBk].
      * rewrite lookup_insert_eq. eexists. split; [reflexivity|].
        cbn. congruence.
      * exists stB. by rewrite lookup_insert_ne.
  - unfold queuesUnique. rewrite Hperm. by apply NoDup_cons.
  - intros u. rewrite Hperm, Eus. rewrite elem_of_cons. intros [->|Hu].
    + rewrite lookup_insert_eq. eexists. split; [reflexivity|]. by cbn.
    + destruct (Hq u Hu) as (st & Hstu & HPu & HWu).
      exists st. rewrite lookup_insert_ne; [done|]. congruence.
  - intros u st. rewrite Hperm, Eus, elem_of_cons.
    destruct (decide (u = userID)) as [->|Huk]; [by left|].
    rewrite lookup_insert_ne by done. intros Hu HW. right. by eapply Hw.
  - intros u st. rewrite Eus. destruct (decide (u = userID)) as [->|Huk].
    + rewrite lookup_insert_eq. intros [= <-]. cbn. congruence.
    + rewrite lookup_insert_ne by done. apply Hself.
  - rewrite Eus. by rewrite lookup_insert_ne.
Qed.

Lemma consistent_pairUp us m mq f fq sm sf :
  us !! m = Some sm → us !! f = Some sf →
  consistent {| users := us; maleQueue := m :: mq; femaleQueue := f :: fq |} →
  consistent {| users := pairUp m f sm sf us; maleQueue := mq;
                femaleQueue := fq |}.
Proof.
  intros Hm Hf Hc. pose proof Hc as [Hsym Huniq Hq Hw Hself Hzero].
  unfold partnerSymmetric, queuesUnique in *.
  cbn [users maleQueue femaleQueue] in *.
  destruct (pairUp_lookup _ _ _ _ _ Hm Hf) as (L1 & L2 & L3).
  apply NoDup_app in Huniq as (Hndm & Hdisj & Hndf).
  apply NoDup_cons in Hndm as [Hm_mq Hnd_mq].
  apply NoDup_cons in Hndf as [Hf_fq Hnd_fq].
  assert (Hmf : m ≠ f).
  { intros ->. apply (Hdisj f); by apply elem_of_cons; left. }
  assert (Hm_fq : m ∉ fq).
  { intros H. apply (Hdisj m); apply elem_of_cons; [by left|by right]. }
  assert (Hf_mq : f ∉ mq).
  { intros H. apply (Hdisj f); apply elem_of_cons; [by right|by left]. }
  assert (HPm : Partner sm = 0).
  { destruct (Hq m) as (st & Hst & HP & _); [by apply elem_of_cons; left|].
    congruence. }
  assert (HPf : Partner sf = 0).
  { destruct (Hq f) as (st & Hst & HP & _).
    - apply elem_of_app. right. by apply elem_of_cons; left.
    - congruence. }
  assert (Hm0 : m ≠ 0) by (intros ->; congruence).
  assert (Hf0 : f ≠ 0) by (intros ->; congruence).
  split; unfold partnerSymmetric, queuesUnique;
    cbn [users maleQueue femaleQueue].
  - intros A B stA HA HB HB0. destruct (decide (A = m)) as [->|HAm].
    + rewrite L1 in HA. injection HA as <-. cbn in HB. subst B. eauto.
    + destruct (decide (A = f)) as [->|HAf].
      * rewrite L2 in HA. injection HA as <-. cbn in HB. subst B. eauto.
      * rewrite L3 in HA by done.
        destruct (Hsym A B stA HA HB HB0) as (stB & HstB & HBA).
        assert (HA0 : A ≠ 0) by (intros ->; congruence).
        assert (B ≠ m) by (intros ->; congruence).
        assert (B ≠ f) by (intros ->; congruence).
        exists stB. by rewrite L3.
  - apply NoDup_app. split; [done|]. split; [|done].
    intros x Hx Hx'. apply (Hdisj x); apply elem_of_cons; by right.
  - intros u Hu.
    assert (u ≠ m).
    { intros ->. apply elem_of_app in Hu as [?|?]; done. }
    assert (u ≠ f).
    { intros ->. apply elem_of_app in Hu as [?|?]; done. }
    rewrite L3 by done. apply Hq.
    apply elem_of_app in Hu as [?|?]; apply elem_of_app;
      [left|right]; by apply elem_of_cons; right.
  - intros u st Hu HW.
    destruct (decide (u = m)) as [->|Hum];
      [rewrite L1 in Hu; injection Hu as <-; discriminate HW|].
    destruct (decide (u = f)) as [->|Huf];
      [rewrite L2 in Hu; injection Hu as <-; discriminate HW|].
    rewrite L3 in Hu by done. pose proof (Hw u st Hu HW) as Hin.
    rewrite elem_of_app, !elem_of_cons in Hin. apply elem_of_app.
    destruct Hin as [[?|?]|[?|?]]; try done; auto.
  - intros u st Hu. destruct (decide (u = m)) as [->|Hum].
    + rewrite L1 in Hu. injection Hu as <-. cbn. congruence.
    + destruct (decide (u = f)) as [->|Huf].
      * rewrite L2 in Hu. injection Hu as <-. cbn. congruence.
      * rewrite L3 in Hu by done. by eapply Hself.
  - by rewrite L3 by congruence.
Qed.

Lemma consistent_matchLoop mq : ∀ us fq b' out,
  consistent {| users := us; maleQueue := mq; femaleQueue := fq |} →
  matchLoop us mq fq = Some (b', out) → consistent b'.
Proof.
  induction mq as [|m mq IH]; intros us fq b' out Hc.
  - rewrite matchLoop_nil_l. by intros [= <- <-].
  - destruct fq as [|f fq].
    + rewrite matchLoop_nil_r. by intros [= <- <-].
    + destruct (us !! m) as [sm|] eqn:Hm;
        [|by rewrite matchLoop_cons_None by auto].
      destruct (us !! f) as [sf|] eqn:Hf;
        [|by rewrite matchLoop_cons_None by auto].
      rewrite (matchLoop_cons _ _ _ _ _ _ _ Hm Hf).
      intros (out' & Hrest & _)%after_inv.
      eapply IH; [|exact Hrest]. by apply consistent_pairUp.
Qed.

Lemma consistent_startChat userID b b' out :
  consistent b → (userID ∉ maleQueue b ++ femaleQueue b) →
  startChat userID b = Some (b', out) → consistent b'.
Proof.
  intros Hc Hnq. destruct (users b !! userID) as [state|] eqn:Hst;
    [|unfold startChat; by rewrite Hst].
  rewrite (startChat_unfold _ _ _ Hst).
  case_decide; [by intros [= <- <-]|].
  case_decide as HP; [by intros [= <- <-]|].
  intros (out' & Hrest & _)%after_inv. unfold matchUsers in Hrest.
  eapply consistent_matchLoop; [|exact Hrest].
  apply consistent_eta, consistent_enqueued; auto.
Qed.

Lemma consistent_paired_not_queued b u st :
  consistent b → users b !! u = Some st → Partner st ≠ 0 →
  u ∉ maleQueue b ++ femaleQueue b.
Proof.
  intros Hc Hu HP Hin. destruct (cs_queued _ Hc u Hin) as (st' & Hst' & HP' & _).
  congruence.
Qed.

Lemma consistent_stopChat X b b' out :
  consistent b → stopChat X b = Some (b', out) →
  consistent b' ∧
  (∀ v, v ∈ maleQueue b' ++ femaleQueue b' → v ∈ maleQueue b ++ femaleQueue b).
Proof.
  intros Hc Hrun. pose proof Hc as [Hsym Huniq Hq Hw Hself Hzero].
  pose proof (stopChat_preserves_symmetry _ _ _ _ Hsym Hrun) as Hsym'.
  revert Hrun. destruct (users b !! X) as [sx|] eqn:Hx;
    [|unfold stopChat; by rewrite Hx].
  destruct (decide (Partner sx = 0)) as [Hp|Hp].
  { rewrite (stopChat_unfold _ _ _ Hx), decide_True by done.
    by intros [= <- <-]. }
  destruct (Hsym X _ _ Hx eq_refl Hp) as (sy & Hy & Hyx).
  assert (HX0 : X ≠ 0) by (by eapply consistent_known_nonzero).
  assert (HXq : X ∉ maleQueue b ++ femaleQueue b)
    by (by eapply consistent_paired_not_queued).
  assert (HYq : Partner sx ∉ maleQueue b ++ femaleQueue b).
  { eapply consistent_paired_not_queued; [done|exact Hy|congruence]. }
  destruct (stopChat_paired _ _ _ _ Hx Hp Hy) as (us' & L1 & L2 & L3 & ->).
  rewrite (removeFromQueue_absent X) by done.
  rewrite (removeFromQueue_absent (Partner sx)) by done.
  intros [= <- <-]. split; [|done].
  split; unfold queuesUnique; cbn [users maleQueue femaleQueue].
  - exact Hsym'.
  - exact Huniq.
  - intros u Hu. rewrite L3; [by apply Hq| |]; congruence.
  - intros u st Hu HW. destruct (decide (u = X)) as [->|HuX].
    + rewrite L1 in Hu. injection Hu as <-. cbn in HW. by eapply Hw.
    + destruct (decide (u = Partner sx)) as [->|HuY].
      * rewrite L2 in Hu. injection Hu as <-. cbn in HW. by eapply Hw.
      * rewrite L3 in Hu by done. by eapply Hw.
  - intros u st Hu. destruct (decide (u = X)) as [->|HuX].
    + rewrite L1 in Hu. injection Hu as <-. cbn. congruence.
    + destruct (decide (u = Partner sx)) as [->|HuY].
      * rewrite L2 in Hu. injection Hu as <-. cbn.
        intros E. apply Hp. congruence.
      * rewrite L3 in Hu by done. by eapply Hself.
  - rewrite L3; [done| |]; [congruence|].
    intros E. rewrite <- E in Hy. congruence.
Qed.

Lemma consistent_nextPartner userID b b' out :
  consistent b → (userID ∉ maleQueue b ++ femaleQueue b) →
  nextPartner userID b = Some (b', out) → consistent b'.
Proof.
  intros Hc Hnq. unfold nextPartner.
  destruct (stopChat userID b) as [[b1 out1]|] eqn:Hstop; [|discriminate].
  cbn [mbind option_bind].
  destruct (startChat userID b1) as [[b2 out2]|] eqn:Hstart; [|discriminate].
  cbn [mbind option_bind]. intros [= <- <-].
  destruct (consistent_stopChat _ _ _ _ Hc Hstop) as [Hc1 Hsub].
  eapply consistent_startChat; [exact Hc1| |exact Hstart].
  intros Hin. apply Hnq. by apply Hsub.
Qed.

Lemma getOrCreate_queues userID b :
  maleQueue (getOrCreate userID b) = maleQueue b ∧
  femaleQueue (getOrCreate userID b) = femaleQueue b.
Proof. unfold getOrCreate. by destruct (users b !! userID). Qed.

(** The cases of the two dispatchers. *)
Lemma handleCallback_cases userID data queryID messageID b b' out :
  handleCallback userID data queryID messageID b = Some (b', out) →
  ∃ out0,
    out = out0 ++ [AnswerCallback queryID; DeleteMessage userID messageID] ∧
    ((data = "gender_male"%string ∧
      setGender userID Male (getOrCreate userID b) = Some (b', out0)) ∨
     (data = "gender_female"%string ∧
      setGender userID Female (getOrCreate userID b) = Some (b', out0)) ∨
     (data = "start_chat"%string ∧
      startChat userID (getOrCreate userID b) = Some (b', out0)) ∨
     (data ≠ "start_chat"%string ∧ b' = getOrCreate userID b ∧ out0 = [])).
Proof.
  unfold handleCallback. cbn zeta.
  destruct (decide (data = "gender_male"%string)) as [E1|E1].
  { destruct (setGender _ _ _) as [[b1 o1]|] eqn:H; [|discriminate].
    cbn [mbind option_bind]. intros [= <- <-]. exists o1. auto. }
  destruct (decide (data = "gender_female"%string)) as [E2|E2].
  { destruct (setGender _ _ _) as [[b1 o1]|] eqn:H; [|discriminate].
    cbn [mbind option_bind]. intros [= <- <-]. exists o1. auto 6. }
  destruct (decide (data = "start_chat"%string)) as [E3|E3].
  { destruct (startChat _ _) as [[b1 o1]|] eqn:H; [|discriminate].
    cbn [mbind option_bind]. intros [= <- <-]. exists o1. auto 6. }
  cbn [mbind option_bind]. intros [= <- <-]. exists []. auto 8.
Qed.

Lemma handleMessage_cases userID text b b' out :
  handleUpdate (Message userID text) b = Some (b', out) →
  (text = "/start"%string ∧
   handleStart userID (getOrCreate userID b) = Some (b', out)) ∨
  (text = "/stop"%string ∧
   stopChat userID (getOrCreate userID b) = Some (b', out)) ∨
  (text = "/next"%string ∧
   nextPartner userID (getOrCreate userID b) = Some (b', out)) ∨
  (text ≠ "/stop"%string ∧ text ≠ "/next"%string ∧
   forwardMessage userID text (getOrCreate userID b) = Some (b', out)).
Proof.
  cbn [handleUpdate]. cbn zeta.
  destruct (decide (text = "/start"%string)) as [E1|E1]; [auto|].
  destruct (decide (text = "/stop"%string)) as [E2|E2]; [auto|].
  destruct (decide (text = "/next"%string)) as [E3|E3]; [auto 6|].
  auto 8.
Qed.

Lemma consistent_handleUpdate u b b' out :
  consistent b → disciplined u b = true →
  handleUpdate u b = Some (b', out) → consistent b'.
Proof.
  intros Hc Hd. destruct u as [userID data queryID messageID|userID text|].
  - cbn [handleUpdate disciplined] in *.
    apply andb_prop in Hd as [Hk%bool_decide_eq_true Hd].
    pose proof (consistent_getOrCreate userID b Hk Hc) as Hc0.
    destruct (getOrCreate_queues userID b) as [Em Ef].
    intros (out0 & _ & Hcase)%handleCallback_cases.
    destruct Hcase as [[_ Hrun]|[[_ Hrun]|[[E Hrun]|(_ & -> & _)]]].
    + by eapply consistent_setGender.
    + by eapply consistent_setGender.
    + eapply consistent_startChat; [exact Hc0| |exact Hrun].
      rewrite Em, Ef. apply orb_prop in Hd as [Hd|Hd].
      * apply bool_decide_eq_true in Hd. by destruct Hd.
      * by apply bool_decide_eq_true in Hd.
    + exact Hc0.
  - cbn [disciplined] in Hd.
    apply andb_prop in Hd as [Hk%bool_decide_eq_true Hd].
    pose proof (consistent_getOrCreate userID b Hk Hc) as Hc0.
    destruct (getOrCreate_queues userID b) as [Em Ef].
    intros Hcase%handleMessage_cases.
    destruct Hcase as [[_ Hrun]|[[_ Hrun]|[[E Hrun]|(_ & _ & Hrun)]]].
    + unfold handleStart in Hrun. by injection Hrun as <- <-.
    + by destruct (consistent_stopChat _ _ _ _ Hc0 Hrun).
    + eapply consistent_nextPartner; [exact Hc0| |exact Hrun].
      rewrite Em, Ef. apply orb_prop in Hd as [Hd|Hd].
      * apply bool_decide_eq_true in Hd. by destruct Hd.
      * by apply bool_decide_eq_true in Hd.
    + by apply forwardMessage_state in Hrun as ->.
  - cbn [handleUpdate]. by intros [= <- <-].
Qed.

Lemma consistent_run us : ∀ b b' out,
  consistent b → disciplinedRun us b = true →
  run us b = Some (b', out) → consistent b'.
Proof.
  induction us as [|u us IH]; intros b b' out Hc; cbn [run disciplinedRun].
  - by intros _ [= <- <-].
  - intros [Hd Hrest]%andb_prop.
    destruct (handleUpdate u b) as [[b1 out1]|] eqn:H1; [|discriminate].
    cbn [mbind option_bind].
    destruct (run us b1) as [[b2 out2]|] eqn:H2; [|discriminate].
    cbn [mbind option_bind]. intros [= <- <-].
    eapply IH; [|exact Hrest|exact H2].
    by eapply consistent_handleUpdate.
Qed.

Lemma consistent_afterTrace us :
  disciplinedRun us NewBot = true → consistent (afterTrace us).
Proof.
  intros Hd. unfold afterTrace.
  destruct (run us NewBot) as [[b out]|] eqn:Hrun; [|apply consistent_NewBot].
  eapply consistent_run; [apply consistent_NewBot|exact Hd|exact Hrun].
Qed.

(** X6: [stopChat] keeps the partner relation mutual: if partners are mutual
    before the call, they are mutual after it. *)
Theorem stopChat_keeps_partners_mutual b X b' out :
  partnerSymmetric b → stopChat X b = Some (b', out) → partnerSymmetric b'.
Proof. apply stopChat_preserves_symmetry. Qed.

Lemma stopChat_keeps_partners_mutual_witness :
  partnerSymmetric (afterTrace tracePaired) ∧
  ∃ b' out,
    stopChat 7 (afterTrace tracePaired) = Some (b', out) ∧
    partnerSymmetric b'.
Proof.
  assert (Hsym : partnerSymmetric (afterTrace tracePaired)).
  { apply cs_symmetric, consistent_afterTrace. vm_compute. reflexivity. }
  split; [exact Hsym|].
  destruct (stopChat 7 (afterTrace tracePaired)) as [[b' out]|] eqn:Hs;
    [|vm_compute in Hs; discriminate Hs].
  exists b', out. split; [reflexivity|].
  exact (stopChat_keeps_partners_mutual _ 7 b' out Hsym Hs).
Defined.

(** X7: the session invariants hold along every disciplined run.  If, from
    the initial state, no update comes from the identifier 0 and nobody
    presses "start_chat" or sends /next while standing in a queue, then in
    the state reached partners are mutual, no identifier is queued twice,
    the queued users are exactly the users marked as waiting, queued users
    have no partner, and nobody is their own partner. *)
Theorem disciplined_run_keeps_sessions us b out :
  disciplinedRun us NewBot = true → run us NewBot = Some (b, out) →
  partnerSymmetric b ∧
  queuesUnique b ∧
  (∀ u, u ∈ maleQueue b ++ femaleQueue b ↔
        ∃ st, users b !! u = Some st ∧ Waiting st = true) ∧
  (∀ u st, users b !! u = Some st → u ∈ maleQueue b ++ femaleQueue b →
           Partner st = 0) ∧
  (∀ u st, users b !! u = Some st → Partner st ≠ u).
Proof.
  intros Hd Hrun.
  pose proof (consistent_run _ _ _ _ consistent_NewBot Hd Hrun)
    as [Hsym Huniq Hq Hw Hself Hzero].
  split; [exact Hsym|]. split; [exact Huniq|]. split; [|split].
  - intros u. split.
    + intros Hu. destruct (Hq u Hu) as (st & Hst & _ & HW). eauto.
    + intros (st & Hst & HW). by eapply Hw.
  - intros u st Hst Hu. destruct (Hq u Hu) as (st' & Hst' & HP & _).
    congruence.
  - exact Hself.
Qed.

Lemma disciplined_run_keeps_sessions_witness :
  disciplinedRun traceDisciplined NewBot = true ∧
  ∃ b out,
    run traceDisciplined NewBot = Some (b, out) ∧
    partnerSymmetric b ∧ queuesUnique b.
Proof.
  assert (Hd : disciplinedRun traceDisciplined NewBot = true)
    by (vm_compute; reflexivity).
  split; [exact Hd|].
  destruct (run traceDisciplined NewBot) as [[b out]|] eqn:Hrun;
    [|vm_compute in Hrun; discriminate Hrun].
  exists b, out. split; [reflexivity|].
  destruct (disciplined_run_keeps_sessions _ b out Hd Hrun) as (H1 & H2 & _).
  auto.
Defined.

(** ** Panics and the matching loop *)

(** X8: the event loop never dereferences a nil pointer.  Whatever updates
    arrive, from the initial state each of them is handled to completion:
    every user that [startChat], [stopChat] or [matchUsers] looks up through
    a queue entry or a partner field has a record. *)
Theorem run_never_panics us : ∃ b out, run us NewBot = Some (b, out).
Proof.
  destruct (run_total us NewBot wellFormed_NewBot) as [[b out] H]. eauto.
Qed.

Lemma matchLoop_ends_empty mq : ∀ us fq b' out,
  matchLoop us mq fq = Some (b', out) →
  maleQueue b' = [] ∨ femaleQueue b' = [].
Proof.
  induction mq as [|m mq IH]; intros us fq b' out.
  - rewrite matchLoop_nil_l. intros [= <- <-]. by left.
  - destruct fq as [|f fq].
    + rewrite matchLoop_nil_r. intros [= <- <-]. by right.
    + destruct (us !! m) as [sm|] eqn:Hm;
        [|by rewrite matchLoop_cons_None by auto].
      destruct (us !! f) as [sf|] eqn:Hf;
        [|by rewrite matchLoop_cons_None by auto].
      rewrite (matchLoop_cons _ _ _ _ _ _ _ Hm Hf).
      intros (out' & Hrest & _)%after_inv. by eapply IH.
Qed.

(** X9: [matchUsers] runs to a fixed point.  Whenever it returns, one of the
    queues is empty, and calling it again changes nothing and sends
    nothing. *)
Theorem matchUsers_fixed_point b b' out :
  matchUsers b = Some (b', out) →
  (maleQueue b' = [] ∨ femaleQueue b' = []) ∧
  matchUsers b' = Some (b', []).
Proof.
  intros Hrun. pose proof (matchLoop_ends_empty _ _ _ _ _ Hrun) as Hend.
  split; [exact Hend|]. unfold matchUsers. destruct b' as [us mq fq].
  cbn [users maleQueue femaleQueue] in *.
  destruct Hend as [-> | ->]; [apply matchLoop_nil_l|apply matchLoop_nil_r].
Qed.

Lemma matchUsers_fixed_point_witness :
  ∃ b' out,
    matchUsers entryThreeWaiting = Some (b', out) ∧
    matchUsers b' = Some (b', []).
Proof.
  destruct (matchUsers entryThreeWaiting) as [[b' out]|] eqn:Hrun;
    [|vm_compute in Hrun; discriminate Hrun].
  exists b', out. split; [reflexivity|].
  exact (proj2 (matchUsers_fixed_point _ b' out Hrun)).
Defined.

(** ** Records are kept, categories change by the gender buttons only *)

Lemma sameGenders_refl us : sameGenders us us.
Proof. intros v st H. eauto. Qed.

Lemma sameGenders_trans us1 us2 us3 :
  sameGenders us1 us2 → sameGenders us2 us3 → sameGenders us1 us3.
Proof.
  intros H12 H23 v st H. destruct (H12 v st H) as (st2 & H2 & E2).
  destruct (H23 v st2 H2) as (st3 & H3 & E3). exists st3. split; congruence.
Qed.

Lemma sameGenders_insert (us : gmap Z UserState) k st' :
  match us !! k with Some st => Gender st' = Gender st | None => True end →
  sameGenders us (<[k := st']> us).
Proof.
  intros Hk v st Hv. destruct (decide (v = k)) as [->|Hne].
  - rewrite Hv in Hk. exists st'. by rewrite lookup_insert_eq.
  - exists st. by rewrite lookup_insert_ne.
Qed.

Lemma sameGenders_store k f us us' :
  (∀ st, Gender (f st) = Gender st) →
  store k f us = Some us' → sameGenders us us'.
Proof.
  intros Hf. unfold store. destruct (us !! k) as [st|] eqn:Hst;
    [|discriminate].
  cbn [mbind option_bind]. intros [= <-].
  apply sameGenders_insert. by rewrite Hst.
Qed.

Lemma sameGenders_pairUp us m f sm sf :
  us !! m = Some sm → us !! f = Some sf →
  sameGenders us (pairUp m f sm sf us).
Proof.
  intros Hm Hf v st Hv.
  destruct (pairUp_lookup _ _ _ _ _ Hm Hf) as (L1 & L2 & L3).
  destruct (decide (v = m)) as [->|Hvm].
  - eexists. split; [exact L1|]. cbn. congruence.
  - destruct (decide (v = f)) as [->|Hvf].
    + eexists. split; [exact L2|]. cbn. congruence.
    + exists st. by rewrite L3.
Qed.

Lemma sameGenders_matchLoop mq : ∀ us fq b' out,
  matchLoop us mq fq = Some (b', out) → sameGenders us (users b').
Proof.
  induction mq as [|m mq IH]; intros us fq b' out.
  - rewrite matchLoop_nil_l. intros [= <- <-]. apply sameGenders_refl.
  - destruct fq as [|f fq].
    + rewrite matchLoop_nil_r. intros [= <- <-]. apply sameGenders_refl.
    + destruct (us !! m) as [sm|] eqn:Hm;
        [|by rewrite matchLoop_cons_None by auto].
      destruct (us !! f) as [sf|] eqn:Hf;
        [|by rewrite matchLoop_cons_None by auto].
      rewrite (matchLoop_cons _ _ _ _ _ _ _ Hm Hf).
      intros (out' & Hrest & _)%after_inv.
      eapply sameGenders_trans;
        [exact (sameGenders_pairUp _ _ _ _ _ Hm Hf)|by eapply IH].
Qed.

Lemma sameGenders_getOrCreate userID b :
  sameGenders (users b) (users (getOrCreate userID b)).
Proof.
  unfold getOrCreate. destruct (users b !! userID) as [st|] eqn:Hst.
  - apply sameGenders_refl.
  - cbn [users]. apply sameGenders_insert. by rewrite Hst.
Qed.

Lemma sameGenders_startChat userID b b' out :
  startChat userID b = Some (b', out) → sameGenders (users b) (users b').
Proof.
  destruct (users b !! userID) as [state|] eqn:Hst;
    [|unfold startChat; by rewrite Hst].
  rewrite (startChat_unfold _ _ _ Hst).
  case_decide; [intros [= <- <-]; apply sameGenders_refl|].
  case_decide; [intros [= <- <-]; apply sameGenders_refl|].
  intros (out' & Hrest & _)%after_inv. unfold matchUsers in Hrest.
  apply sameGenders_matchLoop in Hrest.
  destruct (enqueued_spec userID state b) as (Eus & _ & _).
  rewrite Eus in Hrest.
  eapply sameGenders_trans; [|exact Hrest].
  apply sameGenders_insert. by rewrite Hst.
Qed.

Lemma sameGenders_stopChat userID b b' out :
  stopChat userID b = Some (b', out) → sameGenders (users b) (users b').
Proof.
  destruct (users b !! userID) as [state|] eqn:Hst;
    [|unfold stopChat; by rewrite Hst].
  rewrite (stopChat_unfold _ _ _ Hst).
  case_decide; [intros [= <- <-]; apply sameGenders_refl|].
  destruct (store _ _ _) as [us|] eqn:Hstore; [|discriminate].
  cbn [mbind option_bind]. intros [= <- <-].
  rewrite !removeFromQueue_users. cbn [users].
  eapply sameGenders_trans; [|by eapply sameGenders_store; [|exact Hstore]].
  apply sameGenders_insert. by rewrite Hst.
Qed.

Lemma sameGenders_nextPartner userID b b' out :
  nextPartner userID b = Some (b', out) → sameGenders (users b) (users b').
Proof.
  unfold nextPartner.
  destruct (stopChat userID b) as [[b1 out1]|] eqn:Hstop; [|discriminate].
  cbn [mbind option_bind].
  destruct (startChat userID b1) as [[b2 out2]|] eqn:Hstart; [|discriminate].
  cbn [mbind option_bind]. intros [= <- <-].
  eapply sameGenders_trans;
    [by eapply sameGenders_stopChat|by eapply sameGenders_startChat].
Qed.

Lemma setGender_lookup userID gender b b' out v st :
  setGender userID gender b = Some (b', out) → users b !! v = Some st →
  ∃ st', users b' !! v = Some st' ∧
         Gender st' = (if decide (v = userID) then gender else Gender st).
Proof.
  unfold setGender, store.
  destruct (users b !! userID) as [su|] eqn:Hu; [|discriminate].
  cbn [mbind option_bind]. intros [= <- <-] Hv. cbn [users].
  destruct (decide (v = userID)) as [->|Hne].
  - eexists. by rewrite lookup_insert_eq.
  - exists st. by rewrite lookup_insert_ne.
Qed.

(** X10: no update removes a record of a user, and a user's category
    changes in one way only: by that user's own click on a gender button,
    which sets it to that gender.  In particular a category, once declared,
    never becomes unset again. *)
Theorem handleUpdate_keeps_records u b b' out v st :
  handleUpdate u b = Some (b', out) → users b !! v = Some st →
  ∃ st', users b' !! v = Some st' ∧
    (Gender st' = Gender st ∨
     (∃ q m, u = CallbackQuery v "gender_male" q m ∧ Gender st' = Male) ∨
     (∃ q m, u = CallbackQuery v "gender_female" q m ∧ Gender st' = Female)).
Proof.
  intros Hrun Hv.
  destruct (sameGenders_getOrCreate (match u with
              | CallbackQuery userID _ _ _ | Message userID _ => userID
              | OtherUpdate => v end) b v st Hv) as (st0 & Hv0 & E0).
  destruct u as [userID data queryID messageID|userID text|].
  - cbn [handleUpdate] in Hrun.
    apply handleCallback_cases in Hrun as (out0 & _ & Hcase).
    destruct Hcase as [[-> Hrun]|[[-> Hrun]|[[_ Hrun]|(_ & -> & _)]]].
    + destruct (setGender_lookup _ _ _ _ _ _ _ Hrun Hv0) as (st' & Hst' & E).
      exists st'. split; [done|].
      destruct (decide (v = userID)) as [->|]; [|left; congruence].
      right. left. eauto.
    + destruct (setGender_lookup _ _ _ _ _ _ _ Hrun Hv0) as (st' & Hst' & E).
      exists st'. split; [done|].
      destruct (decide (v = userID)) as [->|]; [|left; congruence].
      right. right. eauto.
    + destruct (sameGenders_startChat _ _ _ _ Hrun v st0 Hv0) as (st' & ? & ?).
      exists st'. split; [done|]. left. congruence.
    + exists st0. auto.
  - apply handleMessage_cases in Hrun.
    destruct Hrun as [[_ Hrun]|[[_ Hrun]|[[_ Hrun]|(_ & _ & Hrun)]]].
    + unfold handleStart in Hrun. injection Hrun as <- <-. exists st0. auto.
    + destruct (sameGenders_stopChat _ _ _ _ Hrun v st0 Hv0) as (st' & ? & ?).
      exists st'. split; [done|]. left. congruence.
    + destruct (sameGenders_nextPartner _ _ _ _ Hrun v st0 Hv0) as (st' & ? & ?).
      exists st'. split; [done|]. left. congruence.
    + apply forwardMessage_state in Hrun as ->. exists st0. auto.
  - cbn [handleUpdate] in Hrun. injection Hrun as <- <-. exists st. auto.
Qed.

Lemma handleUpdate_keeps_records_witness :
  users (afterTrace tracePaired) !! 8
    = Some {| Gender := Female; Partner := 7; Waiting := false |} ∧
  ∃ b' out st',
    handleUpdate (say "/stop" 7) (afterTrace tracePaired) = Some (b', out) ∧
    users b' !! 8 = Some st' ∧ Gender st' = Female.
Proof.
  assert (H8 : users (afterTrace tracePaired) !! 8
    = Some {| Gender := Female; Partner := 7; Waiting := false |})
    by (vm_compute; reflexivity).
  split; [exact H8|].
  destruct (handleUpdate (say "/stop" 7) (afterTrace tracePaired))
    as [[b' out]|] eqn:Hrun; [|vm_compute in Hrun; discriminate Hrun].
  destruct (handleUpdate_keeps_records _ _ b' out 8 _ Hrun H8)
    as (st' & Hst' & [E|[(q & m & Hu & _)|(q & m & Hu & _)]]);
    [|discriminate Hu|discriminate Hu].
  exists b', out, st'. auto.
Defined.

(** ** Lazy creation of records and updates outside sessions *)

Lemma getOrCreate_idem userID b :
  getOrCreate userID (getOrCreate userID b) = getOrCreate userID b.
Proof.
  destruct (getOrCreate_lookup userID b) as [st Hst].
  by apply (getOrCreate_known _ _ st).
Qed.

Lemma getOrCreate_keeps userID b v st :
  users b !! v = Some st → users (getOrCreate userID b) !! v = Some st.
Proof.
  intros Hv. unfold getOrCreate.
  destruct (users b !! userID) as [su|] eqn:Hu; [done|].
  cbn [users]. rewrite lookup_insert_ne; [done|]. congruence.
Qed.

Lemma sameGenders_handler_message userID text b0 b' out :
  handleUpdate (Message userID text) b0 = Some (b', out) →
  ∀ v, is_Some (users (getOrCreate userID b0) !! v) → is_Some (users b' !! v).
Proof.
  intros Hrun v [st0 Hv0]. apply handleMessage_cases in Hrun.
  destruct Hrun as [[_ Hrun]|[[_ Hrun]|[[_ Hrun]|(_ & _ & Hrun)]]].
  - unfold handleStart in Hrun. injection Hrun as <- <-. eauto.
  - destruct (sameGenders_stopChat _ _ _ _ Hrun v st0 Hv0) as (st' & ? & _).
    eauto.
  - destruct (sameGenders_nextPartner _ _ _ _ Hrun v st0 Hv0) as (st' & ? & _).
    eauto.
  - apply forwardMessage_state in Hrun as ->. eauto.
Qed.

Lemma sameGenders_handler_callback userID data q m b0 b' out :
  handleUpdate (CallbackQuery userID data q m) b0 = Some (b', out) →
  ∀ v, is_Some (users (getOrCreate userID b0) !! v) → is_Some (users b' !! v).
Proof.
  intros Hrun v [st0 Hv0]. cbn [handleUpdate] in Hrun.
  apply handleCallback_cases in Hrun as (out0 & _ & Hcase).
  destruct Hcase as [[_ Hrun]|[[_ Hrun]|[[_ Hrun]|(_ & -> & _)]]].
  - destruct (setGender_lookup _ _ _ _ _ _ _ Hrun Hv0) as (st' & ? & _). eauto.
  - destruct (setGender_lookup _ _ _ _ _ _ _ Hrun Hv0) as (st' & ? & _). eauto.
  - destruct (sameGenders_startChat _ _ _ _ Hrun v st0 Hv0) as (st' & ? & _).
    eauto.
  - eauto.
Qed.

(** X11: records are created on first contact.  After any handled text
    message or button click, its sender has a record, whether or not the
    sender was known before. *)
Theorem update_registers_sender b b' out :
  (∀ userID text,
     handleUpdate (Message userID text) b = Some (b', out) →
     is_Some (users b' !! userID)) ∧
  (∀ userID data queryID messageID,
     handleUpdate (CallbackQuery userID data queryID messageID) b
       = Some (b', out) →
     is_Some (users b' !! userID)).
Proof.
  split.
  - intros userID text Hrun.
    eapply sameGenders_handler_message; [exact Hrun|].
    destruct (getOrCreate_lookup userID b) as [st Hst]. eauto.
  - intros userID data queryID messageID Hrun.
    eapply sameGenders_handler_callback; [exact Hrun|].
    destruct (getOrCreate_lookup userID b) as [st Hst]. eauto.
Qed.

Lemma update_registers_sender_witness :
  users NewBot !! 5 = None ∧
  ∃ b' out,
    handleUpdate (Message 5 "/stop") NewBot = Some (b', out) ∧
    is_Some (users b' !! 5).
Proof.
  split; [reflexivity|].
  destruct (handleUpdate (Message 5 "/stop") NewBot) as [[b' out]|] eqn:Hrun;
    [|vm_compute in Hrun; discriminate Hrun].
  exists b', out. split; [reflexivity|].
  exact (proj1 (update_registers_sender NewBot b' out) 5 "/stop"%string Hrun).
Defined.

(** X12: updates outside sessions leave sessions alone.  Every update other
    than the "start_chat" button and the texts /stop and /next -- a gender
    button, a button with unknown data, /start, a text to relay, or an update
    of another kind -- is handled to completion in every state, leaves both
    queues as they are, and leaves partner and waiting flag of every
    existing record as they are.  In particular /start resets nothing. *)
Theorem update_outside_sessions u b :
  sessionUpdate u = false →
  ∃ b' out,
    handleUpdate u b = Some (b', out) ∧
    maleQueue b' = maleQueue b ∧ femaleQueue b' = femaleQueue b ∧
    (∀ v st, users b !! v = Some st →
       ∃ st', users b' !! v = Some st' ∧
              Partner st' = Partner st ∧ Waiting st' = Waiting st).
Proof.
  intros Hs. destruct u as [userID data queryID messageID|userID text|];
    cbn [handleUpdate sessionUpdate] in *.
  - apply bool_decide_eq_false in Hs.
    destruct (getOrCreate_lookup userID b) as [s0 H0].
    destruct (getOrCreate_queues userID b) as [Em Ef].
    assert (Hset : ∀ g, ∃ b' out,
      setGender userID g (getOrCreate userID b) = Some (b', out) ∧
      maleQueue b' = maleQueue b ∧ femaleQueue b' = femaleQueue b ∧
      (∀ v st, users b !! v = Some st →
         ∃ st', users b' !! v = Some st' ∧
                Partner st' = Partner st ∧ Waiting st' = Waiting st)).
    { intros g. unfold setGender. rewrite (store_Some _ _ _ _ H0).
      cbn [mbind option_bind]. eexists _, _. split; [reflexivity|].
      cbn [users maleQueue femaleQueue]. split; [done|]. split; [done|].
      intros v st Hv. apply (getOrCreate_keeps userID) in Hv.
      destruct (decide (v = userID)) as [->|Hne].
      - rewrite lookup_insert_eq. eexists. split; [reflexivity|].
        assert (s0 = st) as -> by congruence. done.
      - rewrite lookup_insert_ne by done. eauto. }
    unfold handleCallback. cbn zeta.
    destruct (decide (data = "gender_male"%string)) as [E1|E1].
    { destruct (Hset Male) as (b' & out & -> & ?). cbn [mbind option_bind].
      eexists _, _. split; [reflexivity|]. done. }
    destruct (decide (data = "gender_female"%string)) as [E2|E2].
    { destruct (Hset Female) as (b' & out & -> & ?). cbn [mbind option_bind].
      eexists _, _. split; [reflexivity|]. done. }
    rewrite decide_False by done. cbn [mbind option_bind].
    eexists _, _. split; [reflexivity|]. split; [done|]. split; [done|].
    intros v st Hv. apply (getOrCreate_keeps userID) in Hv. eauto.
  - apply orb_false_elim in Hs as [H1%bool_decide_eq_false H2%bool_decide_eq_false].
    destruct (getOrCreate_lookup userID b) as [s0 H0].
    destruct (getOrCreate_queues userID b) as [Em Ef].
    assert (Hkeep : ∀ v st, users b !! v = Some st →
       ∃ st', users (getOrCreate userID b) !! v = Some st' ∧
              Partner st' = Partner st ∧ Waiting st' = Waiting st).
    { intros v st Hv. apply (getOrCreate_keeps userID) in Hv. eauto. }
    destruct (decide (text = "/start"%string)) as [E|E].
    { unfold handleStart. eexists _, _. split; [reflexivity|].
      split; [done|]. split; [done|]. exact Hkeep. }
    rewrite !decide_False by done.
    unfold forwardMessage. rewrite H0. cbn [mbind option_bind].
    case_decide; (eexists _, _; split; [reflexivity|];
      split; [done|]; split; [done|]; exact Hkeep).
  - eexists _, _. split; [reflexivity|]. split; [done|]. split; [done|].
    intros v st Hv. eauto.
Qed.

Lemma update_outside_sessions_witness :
  sessionUpdate (say "/start" 7) = false ∧
  ∃ b' out,
    handleUpdate (say "/start" 7) (afterTrace tracePaired) = Some (b', out) ∧
    (∃ st', users b' !! 7 = Some st' ∧ Partner st' = 8 ∧ Waiting st' = false).
Proof.
  assert (Hs : sessionUpdate (say "/start" 7) = false) by reflexivity.
  assert (H7 : users (afterTrace tracePaired) !! 7
    = Some {| Gender := Male; Partner := 8; Waiting := false |})
    by (vm_compute; reflexivity).
  split; [exact Hs|].
  destruct (update_outside_sessions _ (afterTrace tracePaired) Hs)
    as (b' & out & Hrun & _ & _ & Hkeep).
  exists b', out. split; [exact Hrun|]. exact (Hkeep 7 _ H7).
Defined.

(** ** The waiting flag is never read *)

Lemma agreeUsers_Some us1 us2 v s1 :
  agreeUsers us1 us2 → us1 !! v = Some s1 →
  ∃ s2, us2 !! v = Some s2 ∧ Gender s1 = Gender s2 ∧ Partner s1 = Partner s2.
Proof.
  intros Ha H1. specialize (Ha v). rewrite H1 in Ha.
  destruct (us2 !! v) as [s2|]; [eauto|done].
Qed.

Lemma agreeUsers_None us1 us2 v :
  agreeUsers us1 us2 → us1 !! v = None → us2 !! v = None.
Proof.
  intros Ha H1. specialize (Ha v). rewrite H1 in Ha.
  by destruct (us2 !! v).
Qed.

Lemma agreeUsers_insert us1 us2 k s1 s2 :
  agreeUsers us1 us2 → Gender s1 = Gender s2 → Partner s1 = Partner s2 →
  agreeUsers (<[k := s1]> us1) (<[k := s2]> us2).
Proof.
  intros Ha HG HP v. destruct (decide (v = k)) as [->|Hne].
  - by rewrite !lookup_insert_eq.
  - rewrite !lookup_insert_ne by done. apply Ha.
Qed.

Lemma sameOutcome_after pre r1 r2 :
  sameOutcome r1 r2 → sameOutcome (after pre r1) (after pre r2).
Proof.
  destruct r1 as [[b1 o1]|], r2 as [[b2 o2]|]; cbn; try done.
  intros [-> Ha]. done.
Qed.

Lemma sameOutcome_matchLoop mq : ∀ us1 us2 fq,
  agreeUsers us1 us2 →
  sameOutcome (matchLoop us1 mq fq) (matchLoop us2 mq fq).
Proof.
  induction mq as [|m mq IH]; intros us1 us2 fq Ha.
  - rewrite !matchLoop_nil_l. cbn. done.
  - destruct fq as [|f fq]; [rewrite !matchLoop_nil_r; cbn; done|].
    destruct (us1 !! m) as [sm1|] eqn:Hm1.
    2:{ rewrite !matchLoop_cons_None; [done| |]; [|by left].
        left. by eapply agreeUsers_None. }
    destruct (us1 !! f) as [sf1|] eqn:Hf1.
    2:{ rewrite !matchLoop_cons_None; [done| |]; [|by right].
        right. by eapply agreeUsers_None. }
    destruct (agreeUsers_Some _ _ _ _ Ha Hm1) as (sm2 & Hm2 & Gm & Pm).
    destruct (agreeUsers_Some _ _ _ _ Ha Hf1) as (sf2 & Hf2 & Gf & Pf).
    rewrite (matchLoop_cons _ _ _ _ _ _ _ Hm1 Hf1).
    rewrite (matchLoop_cons _ _ _ _ _ _ _ Hm2 Hf2).
    apply sameOutcome_after, IH. unfold pairUp.
    apply agreeUsers_insert; [|done|done].
    by apply agreeUsers_insert.
Qed.

Lemma sameOutcome_startChat userID b1 b2 :
  agreeButWaiting b1 b2 →
  sameOutcome (startChat userID b1) (startChat userID b2).
Proof.
  intros (Em & Ef & Ha). destruct (users b1 !! userID) as [s1|] eqn:H1.
  2:{ pose proof (agreeUsers_None _ _ _ Ha H1) as H2.
      unfold startChat. by rewrite H1, H2. }
  destruct (agreeUsers_Some _ _ _ _ Ha H1) as (s2 & H2 & HG & HP).
  rewrite (startChat_unfold _ _ _ H1), (startChat_unfold _ _ _ H2).
  rewrite <- HG, <- HP.
  destruct (decide (Gender s1 = ""%string)); [by cbn|].
  destruct (decide (Partner s1 ≠ 0)); [by cbn|].
  apply sameOutcome_after. unfold matchUsers, enqueued. cbn zeta.
  rewrite <- HG, <- Em, <- Ef.
  destruct (decide (Gender s1 = Male)); cbn [users maleQueue femaleQueue];
    apply sameOutcome_matchLoop; by apply agreeUsers_insert.
Qed.

Lemma agreeButWaiting_removeFromQueue userID b1 b2 :
  agreeButWaiting b1 b2 →
  agreeButWaiting (removeFromQueue userID b1) (removeFromQueue userID b2).
Proof.
  intros (Em & Ef & Ha). unfold removeFromQueue. rewrite <- Em, <- Ef.
  destruct (removeFirst userID (maleQueue b1)); [done|].
  destruct (removeFirst userID (femaleQueue b1)); done.
Qed.

Lemma sameOutcome_stopChat userID b1 b2 :
  agreeButWaiting b1 b2 →
  sameOutcome (stopChat userID b1) (stopChat userID b2).
Proof.
  intros (Em & Ef & Ha). destruct (users b1 !! userID) as [s1|] eqn:H1.
  2:{ pose proof (agreeUsers_None _ _ _ Ha H1) as H2.
      unfold stopChat. by rewrite H1, H2. }
  destruct (agreeUsers_Some _ _ _ _ Ha H1) as (s2 & H2 & HG & HP).
  rewrite (stopChat_unfold _ _ _ H1), (stopChat_unfold _ _ _ H2).
  rewrite <- HP.
  destruct (decide (Partner s1 = 0)); [by cbn|].
  assert (Ha1 : agreeUsers (<[userID := withPartner 0 s1]> (users b1))
                           (<[userID := withPartner 0 s2]> (users b2)))
    by (by apply agreeUsers_insert).
  destruct (<[userID := withPartner 0 s1]> (users b1) !! Partner s1)
    as [p1|] eqn:Hp1.
  - destruct (agreeUsers_Some _ _ _ _ Ha1 Hp1) as (p2 & Hp2 & HGp & HPp).
    rewrite (store_Some _ _ _ _ Hp1), (store_Some _ _ _ _ Hp2).
    cbn [mbind option_bind sameOutcome]. split; [done|].
    do 2 apply agreeButWaiting_removeFromQueue.
    split; [done|]. split; [done|]. cbn [users].
    by apply agreeUsers_insert.
  - pose proof (agreeUsers_None _ _ _ Ha1 Hp1) as Hp2.
    by rewrite (store_None _ _ _ Hp1), (store_None _ _ _ Hp2).
Qed.

Lemma sameOutcome_nextPartner userID b1 b2 :
  agreeButWaiting b1 b2 →
  sameOutcome (nextPartner userID b1) (nextPartner userID b2).
Proof.
  intros Ha. unfold nextPartner.
  pose proof (sameOutcome_stopChat userID _ _ Ha) as Hs.
  destruct (stopChat userID b1) as [[c1 o1]|],
           (stopChat userID b2) as [[c2 o2]|]; cbn in Hs; try done.
  destruct Hs as [-> Hc]. cbn [mbind option_bind].
  pose proof (sameOutcome_startChat userID _ _ Hc) as Hs.
  destruct (startChat userID c1) as [[d1 p1]|],
           (startChat userID c2) as [[d2 p2]|]; cbn in Hs; try done.
  destruct Hs as [-> Hd]. cbn. done.
Qed.

Lemma sameOutcome_forwardMessage userID text b1 b2 :
  agreeButWaiting b1 b2 →
  sameOutcome (forwardMessage userID text b1) (forwardMessage userID text b2).
Proof.
  intros Hab. pose proof Hab as (Em & Ef & Ha).
  unfold forwardMessage. destruct (users b1 !! userID) as [s1|] eqn:H1.
  - destruct (agreeUsers_Some _ _ _ _ Ha H1) as (s2 & H2 & HG & HP).
    rewrite H2. cbn [mbind option_bind]. rewrite <- HP.
    destruct (decide (Partner s1 ≠ 0)); by cbn.
  - by rewrite (agreeUsers_None _ _ _ Ha H1).
Qed.

Lemma sameOutcome_setGender userID gender b1 b2 :
  agreeButWaiting b1 b2 →
  sameOutcome (setGender userID gender b1) (setGender userID gender b2).
Proof.
  intros (Em & Ef & Ha). unfold setGender.
  destruct (users b1 !! userID) as [s1|] eqn:H1.
  - destruct (agreeUsers_Some _ _ _ _ Ha H1) as (s2 & H2 & HG & HP).
    rewrite (store_Some _ _ _ _ H1), (store_Some _ _ _ _ H2).
    cbn [mbind option_bind sameOutcome]. split; [done|].
    split; [done|]. split; [done|]. cbn [users].
    by apply agreeUsers_insert.
  - pose proof (agreeUsers_None _ _ _ Ha H1) as H2.
    by rewrite (store_None _ _ _ H1), (store_None _ _ _ H2).
Qed.

Lemma agreeButWaiting_getOrCreate userID b1 b2 :
  agreeButWaiting b1 b2 →
  agreeButWaiting (getOrCreate userID b1) (getOrCreate userID b2).
Proof.
  intros Hab. pose proof Hab as (Em & Ef & Ha). unfold getOrCreate.
  destruct (users b1 !! userID) as [s1|] eqn:H1.
  - destruct (agreeUsers_Some _ _ _ _ Ha H1) as (s2 & H2 & _). by rewrite H2.
  - rewrite (agreeUsers_None _ _ _ Ha H1).
    split; [done|]. split; [done|]. cbn [users]. by apply agreeUsers_insert.
Qed.

Lemma sameOutcome_handleUpdate u b1 b2 :
  agreeButWaiting b1 b2 →
  sameOutcome (handleUpdate u b1) (handleUpdate u b2).
Proof.
  intros Hab. destruct u as [userID data queryID messageID|userID text|];
    cbn [handleUpdate].
  - pose proof (agreeButWaiting_getOrCreate userID _ _ Hab) as Hab0.
    unfold handleCallback. cbn zeta.
    assert (Hs : sameOutcome
      (if decide (data = "gender_male"%string)
       then setGender userID Male (getOrCreate userID b1)
       else if decide (data = "gender_female"%string)
       then setGender userID Female (getOrCreate userID b1)
       else if decide (data = "start_chat"%string)
       then startChat userID (getOrCreate userID b1)
       else Some (getOrCreate userID b1, []))
      (if decide (data = "gender_male"%string)
       then setGender userID Male (getOrCreate userID b2)
       else if decide (data = "gender_female"%string)
       then setGender userID Female (getOrCreate userID b2)
       else if decide (data = "start_chat"%string)
       then startChat userID (getOrCreate userID b2)
       else Some (getOrCreate userID b2, []))).
    { destruct (decide (data = "gender_male"%string));
        [by apply sameOutcome_setGender|].
      destruct (decide (data = "gender_female"%string));
        [by apply sameOutcome_setGender|].
      destruct (decide (data = "start_chat"%string));
        [by apply sameOutcome_startChat|]. by cbn. }
    destruct (if decide (data = "gender_male"%string) then _ else _)
      as [[c1 o1]|];
    destruct (if decide (data = "gender_male"%string) then _ else _)
      as [[c2 o2]|]; cbn in Hs; try done.
    destruct Hs as [-> Hc]. by cbn.
  - pose proof (agreeButWaiting_getOrCreate userID _ _ Hab) as Hab0.
    destruct (decide (text = "/start"%string)); [by cbn|].
    destruct (decide (text = "/stop"%string));
      [by apply sameOutcome_stopChat|].
    destruct (decide (text = "/next"%string));
      [by apply sameOutcome_nextPartner|].
    by apply sameOutcome_forwardMessage.
  - by cbn.
Qed.

(** X13: the [Waiting] flag is written but never read.  Started in two
    states that differ in waiting flags only, the handling of any update
    either panics in both or sends exactly the same requests in both and
    ends in two states that again differ in waiting flags only; the same
    holds for whole runs. *)
Theorem waiting_flag_never_read us : ∀ b1 b2,
  agreeButWaiting b1 b2 → sameOutcome (run us b1) (run us b2).
Proof.
  induction us as [|u us IH]; intros b1 b2 Hab; cbn [run]; [by cbn|].
  pose proof (sameOutcome_handleUpdate u _ _ Hab) as Hs.
  destruct (handleUpdate u b1) as [[c1 o1]|],
           (handleUpdate u b2) as [[c2 o2]|]; cbn in Hs; try done.
  destruct Hs as [-> Hc]. cbn [mbind option_bind].
  specialize (IH _ _ Hc).
  destruct (run us c1) as [[d1 p1]|], (run us c2) as [[d2 p2]|];
    cbn in IH; try done.
  destruct IH as [-> Hd]. by cbn.
Qed.

Lemma waiting_flag_never_read_witness :
  agreeButWaiting (afterTrace traceOneWaiting) botWaitingCleared ∧
  sameOutcome
    (run [pick "gender_female" 8; pick "start_chat" 8]
       (afterTrace traceOneWaiting))
    (run [pick "gender_female" 8; pick "start_chat" 8] botWaitingCleared).
Proof.
  assert (Hab : agreeButWaiting (afterTrace traceOneWaiting) botWaitingCleared).
  { split; [vm_compute; reflexivity|]. split; [vm_compute; reflexivity|].
    assert (E : users (afterTrace traceOneWaiting)
      = {[7 := {| Gender := Male; Partner := 0; Waiting := true |}]})
      by (vm_compute; reflexivity).
    rewrite E. unfold botWaitingCleared. cbn [users]. intros v.
    destruct (decide (v = 7)) as [->|Hne].
    - by rewrite !lookup_singleton_eq.
    - by rewrite !lookup_singleton_ne. }
  split; [exact Hab|].
  exact (waiting_flag_never_read _ _ _ Hab).
Defined.

(** ** Requests to the transport *)

Lemma matchLoop_sends mq : ∀ us fq b' out,
  matchLoop us mq fq = Some (b', out) → forallb isSendMessage out = true.
Proof.
  induction mq as [|m mq IH]; intros us fq b' out.
  - rewrite matchLoop_nil_l. by intros [= <- <-].
  - destruct fq as [|f fq].
    + rewrite matchLoop_nil_r. by intros [= <- <-].
    + destruct (us !! m) as [sm|] eqn:Hm;
        [|by rewrite matchLoop_cons_None by auto].
      destruct (us !! f) as [sf|] eqn:Hf;
        [|by rewrite matchLoop_cons_None by auto].
      rewrite (matchLoop_cons _ _ _ _ _ _ _ Hm Hf).
      intros (out' & Hrest & ->)%after_inv. cbn. by eapply IH.
Qed.

Lemma startChat_sends userID b b' out :
  startChat userID b = Some (b', out) → forallb isSendMessage out = true.
Proof.
  destruct (users b !! userID) as [state|] eqn:Hst;
    [|unfold startChat; by rewrite Hst].
  rewrite (startChat_unfold _ _ _ Hst).
  case_decide; [by intros [= <- <-]|].
  case_decide; [by intros [= <- <-]|].
  intros (out' & Hrest & ->)%after_inv. cbn.
  by eapply matchLoop_sends.
Qed.

Lemma stopChat_sends userID b b' out :
  stopChat userID b = Some (b', out) → forallb isSendMessage out = true.
Proof.
  destruct (users b !! userID) as [state|] eqn:Hst;
    [|unfold stopChat; by rewrite Hst].
  rewrite (stopChat_unfold _ _ _ Hst).
  case_decide; [by intros [= <- <-]|].
  destruct (store _ _ _) as [us|]; [|discriminate].
  cbn [mbind option_bind]. by intros [= <- <-].
Qed.

Lemma nextPartner_sends userID b b' out :
  nextPartner userID b = Some (b', out) → forallb isSendMessage out = true.
Proof.
  unfold nextPartner.
  destruct (stopChat userID b) as [[b1 out1]|] eqn:Hstop; [|discriminate].
  cbn [mbind option_bind].
  destruct (startChat userID b1) as [[b2 out2]|] eqn:Hstart; [|discriminate].
  cbn [mbind option_bind]. intros [= <- <-]. rewrite forallb_app.
  by rewrite (stopChat_sends _ _ _ _ Hstop), (startChat_sends _ _ _ _ Hstart).
Qed.

Lemma setGender_sends userID gender b b' out :
  setGender userID gender b = Some (b', out) →
  forallb isSendMessage out = true.
Proof.
  unfold setGender. destruct (store _ _ _) as [us|]; [|discriminate].
  cbn [mbind option_bind]. by intros [= <- <-].
Qed.

(** X14: every handled button click is answered.  Whatever the data of the
    callback -- also unknown data, and also when [startChat] refuses -- the
    requests end with the answer to the callback query followed by the
    deletion of the message that carried the button, and all requests before
    them are messages.  A handled text message produces messages only. *)
Theorem callback_always_answered b b' out :
  (∀ userID data queryID messageID,
     handleUpdate (CallbackQuery userID data queryID messageID) b
       = Some (b', out) →
     ∃ out0,
       out = out0 ++ [AnswerCallback queryID; DeleteMessage userID messageID] ∧
       forallb isSendMessage out0 = true) ∧
  (∀ userID text,
     handleUpdate (Message userID text) b = Some (b', out) →
     forallb isSendMessage out = true).
Proof.
  split.
  - intros userID data queryID messageID Hrun. cbn [handleUpdate] in Hrun.
    apply handleCallback_cases in Hrun as (out0 & -> & Hcase).
    exists out0. split; [done|].
    destruct Hcase as [[_ Hrun]|[[_ Hrun]|[[_ Hrun]|(_ & _ & ->)]]].
    + by eapply setGender_sends.
    + by eapply setGender_sends.
    + by eapply startChat_sends.
    + done.
  - intros userID text Hrun. apply handleMessage_cases in Hrun.
    destruct Hrun as [[_ Hrun]|[[_ Hrun]|[[_ Hrun]|(_ & _ & Hrun)]]].
    + unfold handleStart in Hrun. by injection Hrun as <- <-.
    + by eapply stopChat_sends.
    + by eapply nextPartner_sends.
    + unfold forwardMessage in Hrun.
      destruct (users (getOrCreate userID b) !! userID); [|discriminate].
      cbn [mbind option_bind] in Hrun.
      case_decide; by injection Hrun as <- <-.
Qed.

Lemma callback_always_answered_witness :
  ∃ b' out out0,
    handleUpdate (CallbackQuery 5 "start_chat" "q17" 42) NewBot
      = Some (b', out) ∧
    out = out0 ++ [AnswerCallback "q17"; DeleteMessage 5 42] ∧
    forallb isSendMessage out0 = true.
Proof.
  destruct (handleUpdate (CallbackQuery 5 "start_chat" "q17" 42) NewBot)
    as [[b' out]|] eqn:Hrun; [|vm_compute in Hrun; discriminate Hrun].
  destruct (proj1 (callback_always_answered NewBot b' out) 5
              "start_chat"%string "q17"%string 42 Hrun) as (out0 & E & Hs).
  exists b', out, out0. auto.
Defined.
